(** * revoco: the argument decoder and the report codec of [revoco.c]

    A shallow embedding of the protocol part of [revoco.c] (the tool that
    switches the wheel mode of Logitech's MX-Revolution mouse through
    hidraw) and the properties of it that the specification states.

    Conventions of the embedding.
    - A [u8] object is a [Z] in [0, 256); every store into a [u8] object
      and every [u8] parameter is written as an explicit reduction [u8 v].
      An [int] or [long] is a [Z]; [long] is 64 bits wide.
    - A C string is a [string]; a [char *] into an argument is the suffix
      of the argument that starts there, so [p + n] is [advance n p] and
      [*p == 0] is [is_nil p].
    - [fatal] prints its message and calls [exit(1)]: a computation that
      calls it stops with [Fatal] of the message arguments.
    - The device and the terminal are a [world]: the static [first_byte],
      the trace of the [write], [read], [printf] and [sleep] calls made so
      far, in order, and the buffers that the coming [read] calls will
      deliver. The calls are taken to succeed: the lines that
      [send_report] and [query_report] print when [write] or [read]
      returns an error are not modelled. *)

From Stdlib Require Import ZArith List String Ascii Bool Lia DecimalString.
Import ListNotations.
Open Scope string_scope.
Open Scope list_scope.
Open Scope Z_scope.

(** ** Bytes and C strings *)

(** Conversion to [unsigned char]. *)
Definition u8 (v : Z) : Z := v mod 256.

Definition LONG_MAX : Z := 2 ^ 63 - 1.
Definition LONG_MIN : Z := - 2 ^ 63.

(** [*p == '\0'] *)
Definition is_nil (p : string) : bool :=
  match p with EmptyString => true | String _ _ => false end.

(** [p + n], for [n] no larger than the length of [p]. *)
Fixpoint advance (n : nat) (p : string) : string :=
  match n, p with
  | S n', String _ p' => advance n' p'
  | _, _ => p
  end.

(** The first [n] characters of [p]: what [%.*s] prints with precision [n]. *)
Fixpoint take (n : nat) (p : string) : string :=
  match n, p with
  | S n', String c p' => String c (take n' p')
  | _, _ => EmptyString
  end.

(** [strcmp(a, b) == 0] *)
Definition streq (a b : string) : bool := String.eqb a b.

(** [strncmp(a, b, n) == 0]: the strings agree on their first [n]
    characters, or both end, equal, before that. *)
Fixpoint strneq (a b : string) (n : nat) {struct n} : bool :=
  match n with
  | O => true
  | S n' =>
      match a, b with
      | EmptyString, EmptyString => true
      | String x a', String y b' => Ascii.eqb x y && strneq a' b' n'
      | _, _ => false
      end
  end.

(** ** [strtol(nptr, &end, 0)] of the C library

    The function is the C library's, not the repository's; this is its
    ISO C behaviour for base 0 and a 64-bit [long]: white space, an
    optional sign, [0x]/[0X] for base 16 or a leading [0] for base 8, the
    longest run of digits of the base, the value clamped to the range of
    [long]. When no digit is found nothing is consumed, except that in
    [0x] not followed by a hexadecimal digit the [0] alone is the number.
    The result is the value and the number of characters consumed, i.e.
    [end - nptr]. *)

Definition isspace (c : ascii) : bool :=
  let n := Z.of_N (N_of_ascii c) in
  (n =? 32) || ((9 <=? n) && (n <=? 13)).

Definition digit_value (c : ascii) : option Z :=
  let n := Z.of_N (N_of_ascii c) in
  if (48 <=? n) && (n <=? 57) then Some (n - 48)
  else if (97 <=? n) && (n <=? 122) then Some (n - 87)
  else if (65 <=? n) && (n <=? 90) then Some (n - 55)
  else None.

Fixpoint count_space (s : string) : nat :=
  match s with
  | String c s' => if isspace c then S (count_space s') else O
  | EmptyString => O
  end.

(** The digits of [base] at the head of [s], folded into [acc]; the
    second component counts them. *)
Fixpoint digits (base : Z) (s : string) (acc : Z) : Z * nat :=
  match s with
  | String c s' =>
      match digit_value c with
      | Some d =>
          if d <? base
          then let '(v, k) := digits base s' (acc * base + d) in (v, S k)
          else (acc, O)
      | None => (acc, O)
      end
  | EmptyString => (acc, O)
  end.

Definition clamp_long (v : Z) : Z :=
  if v >? LONG_MAX then LONG_MAX
  else if v <? LONG_MIN then LONG_MIN
  else v.

Definition strtol (nptr : string) : Z * nat :=
  let ws := count_space nptr in
  let s1 := advance ws nptr in
  let '(neg, sl) :=
    match s1 with
    | String "-" _ => (true, 1%nat)
    | String "+" _ => (false, 1%nat)
    | _ => (false, 0%nat)
    end in
  let s2 := advance sl s1 in
  let '(base, pl) :=
    match s2 with
    | String "0" (String c _) =>
        if Ascii.eqb c "x" || Ascii.eqb c "X" then (16, 2%nat) else (8, 0%nat)
    | String "0" EmptyString => (8, 0%nat)
    | _ => (10, 0%nat)
    end in
  let '(v, nd) := digits base (advance pl s2) 0 in
  match nd with
  | O => if Nat.eqb pl 2 then (0, (ws + sl + 1)%nat) else (0, 0%nat)
  | S _ => (clamp_long (if neg then - v else v), (ws + sl + pl + nd)%nat)
  end.

(** ** Fatal errors

    The arguments of the four [fatal] calls of the decoder and of
    [configure]; [fatal_text] is the line [fatal] prints. *)

Inductive fatal_msg : Type :=
| BadArgument (str : string) (prefix : ascii)
    (* "bad argument `%s': `%c' expected" *)
| OutOfRange (sub : string) (min max : Z)
    (* "argument `%.*s' out of range (%d-%d)" *)
| MalformedArgument (str : string)
    (* "malformed argument `%s'" *)
| UnknownOption (str : string).
    (* "unknown option `%s'" *)

(** [%d] *)
Definition dec (v : Z) : string := NilZero.string_of_int (Z.to_int v).

Definition fatal_text (e : fatal_msg) : string :=
  ("revoco: " ++
  match e with
  | BadArgument str prefix =>
      "bad argument `" ++ str ++ "': `" ++ String prefix "' expected"
  | OutOfRange sub min max =>
      "argument `" ++ sub ++ "' out of range (" ++ dec min ++ "-" ++ dec max ++ ")"
  | MalformedArgument str => "malformed argument `" ++ str ++ "'"
  | UnknownOption str => "unknown option `" ++ str ++ "'"
  end)%string.

(** The errors of the argument decoder, as opposed to an unknown command. *)
Definition is_decode_error (e : fatal_msg) : bool :=
  match e with
  | BadArgument _ _ | OutOfRange _ _ _ | MalformedArgument _ => true
  | UnknownOption _ => false
  end.

(** A computation that may call [fatal]. *)
Inductive outcome (A : Type) : Type :=
| Done (a : A)
| Fatal (e : fatal_msg).
Arguments Done {A} a.
Arguments Fatal {A} e.

Module Decode.

Definition bind {A B} (m : outcome A) (k : A -> outcome B) : outcome B :=
  match m with
  | Done a => k a
  | Fatal e => Fatal e
  end.

End Decode.

Declare Scope decode_scope.
Delimit Scope decode_scope with decode.
Notation "' pat <- m ;; k" :=
  (Decode.bind m (fun x => match x with pat => k end))
  (at level 61, pat pattern, m at next level, right associativity) : decode_scope.

(** ** The argument decoder: [onearg], [twoargs], [nargs] *)

(** [onearg(str, prefix, &arg, def, min, max)]: the byte stored in [*arg]
    and the returned pointer. *)
Definition onearg (str : string) (prefix : ascii) (def min max : Z)
  : outcome (Z * string) :=
  let arg := u8 def in
  match str with
  | EmptyString => Done (arg, str)
  | String c str' =>
      if negb (Ascii.eqb c prefix) then Fatal (BadArgument str prefix)
      else
        let '(n, len) := strtol str' in
        let end_ := advance len str' in
        match len with
        | O => Done (arg, end_)
        | S _ =>
            if (n <? min) || (n >? max)
            then Fatal (OutOfRange (take len str') min max)
            else Done (u8 n, end_)
        end
  end.

(** [twoargs(str, &arg1, &arg2, def, min, max)] *)
Definition twoargs (str : string) (def min max : Z) : outcome (Z * Z) :=
  (' (arg1, p) <- onearg str "=" def min max ;;
   ' (arg2, p) <- onearg p "," arg1 min max ;;
   if is_nil p then Done (arg1, arg2) else Fatal (MalformedArgument str))%decode.

(** The loop of [nargs]: [n] more slots to fill, [i] arguments seen. *)
Fixpoint nargs_loop (n : nat) (p : string) (del : ascii) (i : Z)
    (def min max : Z) : outcome (list Z * Z * string) :=
  match n with
  | O => Done ([], i, p)
  | S n' =>
      let i := if is_nil p then i else i + 1 in
      (' (arg, p) <- onearg p del def min max ;;
       ' (buf, i, p) <- nargs_loop n' p "," i def min max ;;
       Done (arg :: buf, i, p))%decode
  end.

(** [nargs(str, buf, n, def, min, max)]: the returned count and [buf]. *)
Definition nargs (str : string) (n : nat) (def min max : Z)
  : outcome (Z * list Z) :=
  (' (buf, i, p) <- nargs_loop n str "=" 0 def min max ;;
   if is_nil p then Done (i, buf) else Fatal (MalformedArgument str))%decode.

(** ** The device and the terminal *)

Inductive event : Type :=
| Write (bytes : list Z)     (* write(fd, bytes, length bytes) *)
| Read (count : Z)           (* read(fd, buf, count) *)
| Print (text : string)      (* printf *)
| Sleep (seconds : Z).       (* sleep(seconds) *)

Record world : Type := mkWorld {
  first_byte : Z;              (* static u8 first_byte *)
  trace : list event;          (* the calls made so far, oldest first *)
  device : list (list Z)       (* what the coming read calls deliver *)
}.

(** The device traffic so far: the [write] and [read] calls. *)
Definition device_io (w : world) : list event :=
  filter (fun e => match e with Write _ | Read _ => true | _ => false end)
         (trace w).

(** What the next [read] of [count] bytes leaves in its buffer: at most
    [count] bytes of the next buffer of the device. *)
Definition next_answer (count : Z) (w : world) : list Z :=
  firstn (Z.to_nat count) (map u8 (hd [] (device w))).

(** A computation of [revoco.c]: it changes the world and returns, or
    calls [fatal] in the world it has reached. *)
Definition M (A : Type) : Type := world -> outcome A * world.

Module IO.

Definition ret {A} (a : A) : M A := fun w => (Done a, w).

Definition bind {A B} (m : M A) (k : A -> M B) : M B :=
  fun w =>
    match m w with
    | (Done a, w') => k a w'
    | (Fatal e, w') => (Fatal e, w')
    end.

(** A decoder result inside a computation: [fatal] exits the program. *)
Definition lift {A} (r : outcome A) : M A := fun w => (r, w).

Definition emit (e : event) : M unit :=
  fun w => (Done tt, mkWorld (first_byte w) (trace w ++ [e]) (device w)).

Definition get_first_byte : M Z := fun w => (Done (first_byte w), w).

Definition set_first_byte (v : Z) : M unit :=
  fun w => (Done tt, mkWorld (u8 v) (trace w) (device w)).

(** [read(fd, buf, count)]: the contents of [buf] afterwards. The model
    is that of a [read] that returns; the bytes it did not fill, which
    in the program are indeterminate, are left out of the buffer. What
    is stated about the contents of a buffer is stated for a [read] that
    fills it ([delivers], below). *)
Definition read (count : Z) : M (list Z) :=
  fun w =>
    (Done (next_answer count w),
     mkWorld (first_byte w) (trace w ++ [Read count]) (tl (device w))).

Fixpoint for_each {A} (l : list A) (body : A -> M unit) : M unit :=
  match l with
  | [] => ret tt
  | a :: l' => bind (body a) (fun _ => for_each l' body)
  end.

End IO.

Declare Scope io_scope.
Delimit Scope io_scope with io.
Notation "x <- m ;; k" := (IO.bind m (fun x => k))
  (at level 61, m at next level, right associativity) : io_scope.
Notation "' pat <- m ;; k" :=
  (IO.bind m (fun x => match x with pat => k end))
  (at level 61, pat pattern, m at next level, right associativity) : io_scope.
Notation "m ;; k" := (IO.bind m (fun _ => k))
  (at level 61, right associativity) : io_scope.

Definition printf (text : string) : M unit := IO.emit (Print text).

(** The newline character, as a string. *)
Definition nl : string := String "010" "".

(** [buf[i]]; a byte that no [read] has filled reads as 0 here, and is
    indeterminate in the program. *)
Definition byte_at (buf : list Z) (i : nat) : Z := nth i buf 0.

(** [%02x] and [%02X] of a byte. *)
Definition hex_digit (upper : bool) (d : Z) : ascii :=
  nth (Z.to_nat d)
      (list_ascii_of_string
         (if upper then "0123456789ABCDEF" else "0123456789abcdef"))
      "0"%char.

Definition hex2 (upper : bool) (v : Z) : string :=
  String (hex_digit upper (v / 16)) (String (hex_digit upper (v mod 16)) "").

(** ** Opening the device: [open_dev] *)

(** The [(short)] casts of the identifiers. *)
Definition short (v : Z) : Z := (v + 2 ^ 15) mod 2 ^ 16 - 2 ^ 15.

Definition LOGITECH : Z := short 0x046d.
Definition MX_REVOLUTION : Z := short 0xc51a.
Definition MX_REVOLUTION2 : Z := short 0xc525.
Definition MX_REVOLUTION3 : Z := short 0xc526.
Definition MX_REVOLUTION4 : Z := short 0xc52b.
Definition MX_REVOLUTION5 : Z := short 0xb007.
Definition MX_5500 : Z := short 0xc71c.

(** [struct hidraw_devinfo]: the two signed 16-bit identifiers. *)
Record devinfo : Type := mkDevinfo { vendor : Z; product : Z }.

(** The loop of [open_dev] over the nodes [i], [i+1], ...: [nodes] gives
    for each node the answer of [HIDIOCGRAWINFO], or [None] when [open]
    or [ioctl] fails. The result is the index of the node kept open, or
    [None] for -1. *)
Fixpoint open_dev_loop (nodes : list (option devinfo)) (i : nat)
  : M (option nat) :=
  match nodes with
  | [] => IO.ret None
  | node :: nodes' =>
      match node with
      | Some dinfo =>
          if vendor dinfo =? LOGITECH then
            ((if (product dinfo =? MX_REVOLUTION)
                 || (product dinfo =? MX_REVOLUTION2)
                 || (product dinfo =? MX_REVOLUTION3)
                 || (product dinfo =? MX_REVOLUTION4)
                 || (product dinfo =? MX_REVOLUTION5)
              then IO.set_first_byte 1
              else if product dinfo =? MX_5500
              then IO.set_first_byte 2
              else IO.ret tt) ;;
             fb <- IO.get_first_byte ;;
             if negb (fb =? 0) then IO.ret (Some i)
             else open_dev_loop nodes' (S i))%io
          else open_dev_loop nodes' (S i)
      | None => open_dev_loop nodes' (S i)
      end
  end.

(** [open_dev(path)], [nodes] being the nodes [path] names for 0, 1, ... *)
Definition open_dev (nodes : list (option devinfo)) : M (option nat) :=
  open_dev_loop (firstn 16 nodes) 0.

(** ** Reports: [send_report], [query_report], [mx_cmd], [mx_query] *)

(** [send_report(fd, id, buf, n)]: [send_buf] is [id] followed by the
    first [n] bytes of [buf]; [n + 1] bytes of it are written. The
    callers pass [n >= -1]. *)
Definition send_report (id : Z) (buf : list Z) (n : Z) : M unit :=
  let send_buf := u8 id :: firstn (Z.to_nat n) buf in
  IO.emit (Write (firstn (Z.to_nat (n + 1)) send_buf)).

(** [query_report(fd, id, buf, n)]: the contents of [buf] afterwards. *)
Definition query_report (id : Z) (n : Z) : M (list Z) :=
  IO.read (n + 1).

(** [mx_cmd(fd, b1, b2, b3)] *)
Definition mx_cmd (b1 b2 b3 : Z) : M unit :=
  (fb <- IO.get_first_byte ;;
   let buf := [fb; 0x80; 0x56; u8 b1; u8 b2; u8 b3] in
   send_report 0x10 buf 6)%io.

(** The condition of the [if] of [mx_query], on the shifted answer. *)
Definition bad_answer (res : list Z) : bool :=
  let r := byte_at res in
  ((negb (r 0%nat =? 0x02) && negb (r 0%nat =? 0x01) && negb (r 0%nat =? 0x00))
   || negb (r 1%nat =? 0x81)
   || (negb (r 2%nat =? 0xb1) && negb (r 2%nat =? 0x08)))
  &&
  ((negb (r 0%nat =? 0x02) && negb (r 0%nat =? 0x01) && negb (r 0%nat =? 0x00))
   || negb (r 1%nat =? 0x81)
   || (negb (r 2%nat =? 0x0d) && negb (r 2%nat =? 0x08))).

(** The loop [res[i] = res[i+1]], [i] from 0 to 5, that drops the echoed
    report id; each [res[i+1]] is read before it is overwritten. *)
Definition shift_answer (raw : list Z) : list Z :=
  map (fun i => byte_at raw (S i)) (seq 0 6).

(** [mx_query(fd, b1, res)]: the returned flag and [res]. *)
Definition mx_query (b1 : Z) : M (bool * list Z) :=
  (fb <- IO.get_first_byte ;;
   let buf := [fb; 0x81; u8 b1; 0; 0; 0] in
   send_report 0x10 buf 6 ;;
   raw <- query_report 0x10 6 ;;
   let res := shift_answer raw in
   if bad_answer res then
     printf "bad answer:" ;;
     IO.for_each (seq 0 6)
       (fun i => printf (hex2 true (byte_at res i) ++ " ")%string) ;;
     printf nl ;;
     IO.ret (false, res)
   else IO.ret (true, res))%io.

(** ** The commands: [configure] *)

(** The [manual] branch after [twoargs]. *)
Definition manual_cmd (perm arg1 arg2 : Z) : M unit :=
  if negb (arg1 =? arg2)
  then mx_cmd (perm + 7) (arg1 * 16 + arg2) 0
  else mx_cmd (perm + 8) arg1 0.

(** The fixed report of [reconnect]. *)
Definition reconnect_cmd : list Z := [0xff; 0x80; 0xb2; 1; 0; 0].

Definition reconnect_text : list string :=
  [ "Reconnection initiated" ++ nl;
    " - Turn off the mouse" ++ nl;
    " - Press and hold the left mouse button" ++ nl;
    " - Turn on the mouse" ++ nl;
    " - Press the right button 5 times" ++ nl;
    " - Release the left mouse button" ++ nl ]%string.

(** The [mode] branch. *)
Definition mode_cmd : M unit :=
  (' (ok, buf) <- mx_query 0x08 ;;
   if ok then
     if negb (Z.land (byte_at buf 5) 1 =? 0)
     then printf ("click-by-click" ++ nl)%string
     else printf ("free spinning" ++ nl)%string
   else IO.ret tt)%io.

(** The [switch] of the [battery] branch. *)
Definition battery_state (code : Z) : string :=
  if code =? 0x30 then "running on battery"
  else if code =? 0x50 then "charging"
  else if code =? 0x90 then "fully charged"
  else ("status " ++ hex2 false code)%string.

(** The [battery] branch. *)
Definition battery_cmd : M unit :=
  (' (ok, buf) <- mx_query 0x0d ;;
   if ok then
     printf ("battery level " ++ dec (byte_at buf 3) ++ "%, "
             ++ battery_state (byte_at buf 5) ++ nl)%string
   else IO.ret tt)%io.

(** The [query] branch from [query_report] on: the read and the dump of
    the first [arg2] bytes of the buffer ([j] is a [u8] below [arg2]). *)
Definition query_dump (arg1 arg2 : Z) : M unit :=
  (buf <- query_report arg1 arg2 ;;
   printf ("report " ++ hex2 false arg1 ++ ":")%string ;;
   IO.for_each (seq 0 (Z.to_nat arg2))
     (fun j => printf (" " ++ hex2 false (byte_at buf j))%string) ;;
   printf nl)%io.

(** The [query] branch after [twoargs]; [arg1] and [arg2] are the [u8]
    objects that [twoargs] filled, compared with the [int] -1. *)
Definition query_cmd (arg1 arg2 : Z) : M unit :=
  let '(arg1, arg2) :=
    if arg1 =? -1 then (u8 0x10, u8 6) else (arg1, arg2) in
  query_dump arg1 arg2.

(** The body of the loop of [configure], for [argv[i]]. *)
Definition configure_arg (argv_i : string) : M unit :=
  let perm := 0x80 in
  let cmd := argv_i in
  let '(perm, cmd) :=
    if strneq cmd "temp-" 5 then (0, advance 5 cmd) else (perm, cmd) in
  (if streq cmd "free" then mx_cmd (perm + 1) 0 0
   else if streq cmd "click" then mx_cmd (perm + 2) 0 0
   else if strneq cmd "manual" 6 then
     ' (arg1, arg2) <- IO.lift (twoargs (advance 6 cmd) 0 0 15) ;;
     manual_cmd perm arg1 arg2
   else if strneq cmd "auto" 4 then
     ' (arg1, arg2) <- IO.lift (twoargs (advance 4 cmd) 0 0 50) ;;
     mx_cmd (perm + 5) arg1 arg2
   else if strneq argv_i "soft-free" 9 then
     ' (arg1, arg2) <- IO.lift (twoargs (advance 9 argv_i) 0 0 255) ;;
     mx_cmd 3 arg1 arg2
   else if strneq argv_i "soft-click" 10 then
     ' (arg1, arg2) <- IO.lift (twoargs (advance 10 argv_i) 0 0 255) ;;
     mx_cmd 4 arg1 arg2
   else if strneq argv_i "reconnect" 9 then
     ' (arg1, arg2) <- IO.lift (twoargs (advance 9 argv_i) 0 0 255) ;;
     send_report 0x10 reconnect_cmd 6 ;;
     IO.for_each reconnect_text printf
   else if strneq argv_i "mode" 4 then mode_cmd
   else if strneq argv_i "battery" 7 then battery_cmd
   else if strneq argv_i "raw" 3 then
     ' (i, buf) <- IO.lift (nargs (advance 3 argv_i) 256 0 0 255) ;;
     let n := u8 i in
     send_report (byte_at buf 0) (tl buf) (n - 1)
   else if strneq argv_i "query" 5 then
     ' (arg1, arg2) <- IO.lift (twoargs (advance 5 argv_i) (-1) 0 255) ;;
     query_cmd arg1 arg2
   else if strneq argv_i "sleep" 5 then
     ' (arg1, arg2) <- IO.lift (twoargs (advance 5 argv_i) 1 0 255) ;;
     IO.emit (Sleep arg1)
   else IO.lift (Fatal (UnknownOption argv_i)))%io.

(** The loop of [configure] over [argv[1]], [argv[2]], ... *)
Fixpoint configure_loop (args : list string) : M unit :=
  match args with
  | [] => IO.ret tt
  | argv_i :: args' => (configure_arg argv_i ;; configure_loop args')%io
  end.

(** [configure(handle, argc, argv)]; [argv[0]] is not a command. *)
Definition configure (argv : list string) : M unit :=
  configure_loop (tl argv).

(** The world in which [configure] starts: nothing done yet. *)
Definition start (fb : Z) (answers : list (list Z)) : world :=
  mkWorld fb [] answers.

(** ** The acceptance predicate in the words of the specification *)

Inductive query_kind : Type := QueryMode | QueryBattery.

(** The subcode that [configure] passes to [mx_query] for each kind. *)
Definition query_subcode (k : query_kind) : Z :=
  match k with QueryMode => 0x08 | QueryBattery => 0x0d end.

(** The accepted subcodes of a kind, as the specification lists them. *)
Definition spec_subcodes (k : query_kind) : list Z :=
  match k with
  | QueryMode => [0xb1; 0x08]
  | QueryBattery => [0x0d; 0x08]
  end.

(** The specification's acceptance predicate on the stripped answer. *)
Definition spec_accepts (k : query_kind) (res : list Z) : Prop :=
  In (byte_at res 0) [0x00; 0x01; 0x02]
  /\ byte_at res 1 = 0x81
  /\ In (byte_at res 2) (spec_subcodes k).

(** The decoding of a packed button byte, as the specification gives it. *)
Definition spec_decode_buttons (byte : Z) : Z * Z := (byte / 16, byte mod 16).

(** ** Vocabulary of the statements *)

(** The world [w] after the further calls [es]. *)
Definition after (w : world) (es : list event) : world :=
  mkWorld (first_byte w) (trace w ++ es) (device w).

(** The token starts with [temp-] (line 283). *)
Definition has_temp (argv_i : string) : bool := strneq argv_i "temp-" 5.

(** [cmd] and [perm] once the prefix is dealt with (lines 280-284). *)
Definition command_of (argv_i : string) : string :=
  if has_temp argv_i then advance 5 argv_i else argv_i.

Definition perm_of (argv_i : string) : Z :=
  if has_temp argv_i then 0 else 0x80.

(** [mx_query] returned 1. *)
Definition mx_query_accepts (b1 : Z) (w : world) : Prop :=
  exists res w', mx_query b1 w = (Done (true, res), w').

(** The next [read] finds an answer of at least [count] bytes waiting,
    so that it returns at once and fills the first [count] bytes of its
    buffer. Without this the program differs from the model: [read]
    blocks while no answer is there, and after a shorter answer the rest
    of the buffer keeps whatever the stack held. *)
Definition delivers (count : Z) (w : world) : Prop :=
  (Z.to_nat count <= List.length (hd [] (device w)))%nat.

(** A computation that leaves [first_byte] alone. *)
Definition keeps_first_byte {A} (m : M A) : Prop :=
  forall w, first_byte (snd (m w)) = first_byte w.

(** A computation that never calls [fatal]. *)
Definition never_fatal {A} (m : M A) : Prop :=
  forall w, exists a w', m w = (Done a, w').

(** A computation that has done nothing when it calls [fatal]. *)
Definition fatal_does_nothing {A} (m : M A) : Prop :=
  forall w e w', m w = (Fatal e, w') -> w' = w.

(** The value that the [switch] of [open_dev] leaves in [first_byte] for
    a device when [first_byte] was 0: 1 or 2 for the supported products
    of the vendor, 0 for everything else. *)
Definition discriminant (dinfo : devinfo) : Z :=
  if vendor dinfo =? LOGITECH then
    if (product dinfo =? MX_REVOLUTION)
       || (product dinfo =? MX_REVOLUTION2)
       || (product dinfo =? MX_REVOLUTION3)
       || (product dinfo =? MX_REVOLUTION4)
       || (product dinfo =? MX_REVOLUTION5)
    then 1
    else if product dinfo =? MX_5500 then 2 else 0
  else 0.

(** ** [main] once the options are parsed (lines 484-500)

    [getopt_long] is the C library's; [main] is modelled from the first
    [open_dev] on, for the values the option loop has left: [filename]
    ([None] when no [-d] was given, so that [filename] is still
    [default_filename]), [optind] and [argv], with [debug] 0. *)

Definition default_filename : string := "/dev/usb/hiddev%d".

(** The host: the device nodes that a path pattern names for 0, 1, ...,
    with the answer of [HIDIOCGRAWINFO] on each; the result of
    [open(path, O_RDWR)] in [trouble_shooting]; and [strerror(errno)] when
    the [fcntl] of [init_dev] fails. *)
Inductive errno : Type := ENOENT | EPERM | EACCES | Eother.

Inductive open_result : Type := Opened | Failed (e : errno).

Record host : Type := mkHost {
  hid : string -> list (option devinfo);
  probe : string -> open_result;
  fcntl_error : option string
}.

(** The three [fatal] calls of [trouble_shooting]. *)
Inductive trouble : Type :=
| NoMouseFound                  (* "No Logitech MX-Revolution(...) found." *)
| NoPermission (path : string)  (* "No permission to access hidraw (%s-15)..." *)
| DeviceNotFound.               (* "Device not found.'" *)

(** [trouble_shooting()]: it always ends in [fatal]. *)
Definition trouble_shooting (h : host) : trouble :=
  let path := "/dev/hidraw0" in
  let fd := probe h path in
  let '(path, fd) :=
    match fd with
    | Failed ENOENT => ("/dev/usb/hidraw0", probe h "/dev/usb/hidraw0")
    | _ => (path, fd)
    end in
  match fd with
  | Opened => NoMouseFound
  | Failed EPERM | Failed EACCES => NoPermission path
  | Failed _ => DeviceNotFound
  end.

(** [init_dev(fd)] *)
Definition init_dev (h : host) : M unit :=
  match fcntl_error h with
  | Some err => printf ("fcntl(O_NONBLOCK): " ++ err ++ nl)%string
  | None => IO.ret tt
  end.

(** Lines 484-488: the three attempts to open the device. *)
Definition open_handle (h : host) (filename : option string)
  : M (option nat) :=
  (handle <- open_dev (hid h (match filename with
                              | Some f => f
                              | None => default_filename
                              end)) ;;
   handle <- match handle, filename with
             | None, Some _ => open_dev (hid h default_filename)
             | _, _ => IO.ret handle
             end ;;
   match handle with
   | None => open_dev (hid h "/dev/hiddev%d")
   | Some _ => IO.ret handle
   end)%io.

(** The path patterns that lines 484-488 try, in their order. *)
Definition candidate_paths (filename : option string) : list string :=
  match filename with
  | Some f => [f; default_filename; "/dev/hiddev%d"]
  | None => [default_filename; "/dev/hiddev%d"]
  end.

(** [open_dev] finds a device under the path pattern. *)
Definition opens (h : host) (w : world) (path : string) : bool :=
  match fst (open_dev (hid h path) w) with
  | Done (Some _) => true
  | _ => false
  end.

(** How the process ends. *)
Inductive ending : Type :=
| Finished                   (* exit(0) at the end of main *)
| Aborted (e : fatal_msg)    (* fatal in configure *)
| Troubled (t : trouble).    (* fatal in trouble_shooting *)

(** [main] from line 484 on; [optind < argc] is [optind < length argv]. *)
Definition main_from_open (h : host) (filename : option string)
    (optind : nat) (argv : list string) : world -> ending * world :=
  fun w =>
    match open_handle h filename w with
    | (Done None, w1) => (Troubled (trouble_shooting h), w1)
    | (Done (Some handle), w1) =>
        match
          (init_dev h ;;
           if (optind <? List.length argv)%nat
           then configure (skipn (optind - 1) argv)
           else IO.ret tt)%io w1
        with
        | (Done _, w2) => (Finished, w2)
        | (Fatal e, w2) => (Aborted e, w2)
        end
    | (Fatal e, w1) => (Aborted e, w1)
    end.

(** What [mx_query] prints for an answer that fails its test. *)
Definition bad_answer_report (res : list Z) : list event :=
  Print "bad answer:"
  :: map (fun i => Print (hex2 true (byte_at res i) ++ " ")%string) (seq 0 6)
  ++ [Print nl].

(** * Properties *)

Arguments u8 : simpl never.
Arguments next_answer : simpl never.
Arguments shift_answer : simpl never.
Arguments bad_answer : simpl never.
Arguments hex2 : simpl never.

(** ** Strings *)

Lemma strneq_prefix (b a : string) :
  strneq a b (String.length b) = true ->
  a = (b ++ advance (String.length b) a)%string.
Proof.
  revert a; induction b as [|y b IH]; intros a H; simpl in *.
  - reflexivity.
  - destruct a as [|x a]; [discriminate|].
    apply andb_prop in H as [Hxy Ha].
    apply Ascii.eqb_eq in Hxy; subst y.
    simpl. f_equal. now apply IH.
Qed.

(** ** The decoder *)

Lemma u8_range (v : Z) : 0 <= u8 v < 256.
Proof. unfold u8; apply Z.mod_pos_bound; lia. Qed.

Lemma u8_small (v : Z) : 0 <= v < 256 -> u8 v = v.
Proof. unfold u8; intros; now apply Z.mod_small. Qed.

(** What [onearg] stores is a byte. *)
Lemma onearg_byte str prefix def min max v p :
  onearg str prefix def min max = Done (v, p) -> 0 <= v < 256.
Proof.
  unfold onearg; destruct str as [|c str'].
  - intros [= <- _]; apply u8_range.
  - destruct (negb (Ascii.eqb c prefix)); [discriminate|].
    destruct (strtol str') as [n [|len]].
    + intros [= <- _]; apply u8_range.
    + destruct ((n <? min) || (n >? max)); [discriminate|].
      intros [= <- _]; apply u8_range.
Qed.

(** A stored byte is the default or a value within the bounds. *)
Lemma onearg_value str prefix def min max v p :
  onearg str prefix def min max = Done (v, p) ->
  0 <= min -> max <= 255 ->
  v = u8 def \/ min <= v <= max.
Proof.
  unfold onearg; destruct str as [|c str'].
  - intros [= <- _]; auto.
  - destruct (negb (Ascii.eqb c prefix)); [discriminate|].
    destruct (strtol str') as [n [|len]].
    + intros [= <- _]; auto.
    + destruct ((n <? min) || (n >? max)) eqn:E; [discriminate|].
      intros [= <- _] Hmin Hmax; right.
      apply orb_false_elim in E as [E1 E2].
      rewrite u8_small; lia.
Qed.

(** [onearg] fails with a decoder error only. *)
Lemma onearg_fatal str prefix def min max e :
  onearg str prefix def min max = Fatal e -> is_decode_error e = true.
Proof.
  unfold onearg; destruct str as [|c str']; [discriminate|].
  destruct (negb (Ascii.eqb c prefix)); [now intros [= <-]|].
  destruct (strtol str') as [n [|len]]; [discriminate|].
  destruct ((n <? min) || (n >? max)); [now intros [= <-]|discriminate].
Qed.

(** [twoargs], case by case on the two calls of [onearg]. *)
Lemma twoargs_unfold str def min max :
  twoargs str def min max =
  match onearg str "=" def min max with
  | Fatal e => Fatal e
  | Done (v1, p) =>
      match onearg p "," v1 min max with
      | Fatal e => Fatal e
      | Done (v2, p') =>
          if is_nil p' then Done (v1, v2) else Fatal (MalformedArgument str)
      end
  end.
Proof.
  unfold twoargs, Decode.bind.
  destruct (onearg str "=" def min max) as [[v1 p]|e]; [|reflexivity].
  destruct (onearg p "," v1 min max) as [[v2 p']|e]; reflexivity.
Qed.

Lemma twoargs_bytes str def min max v1 v2 :
  twoargs str def min max = Done (v1, v2) ->
  0 <= v1 < 256 /\ 0 <= v2 < 256.
Proof.
  rewrite twoargs_unfold.
  destruct (onearg str "=" def min max) as [[a1 p]|e] eqn:E1; [|discriminate].
  destruct (onearg p "," a1 min max) as [[a2 p']|e] eqn:E2; [|discriminate].
  destruct (is_nil p'); [|discriminate].
  intros [= <- <-]; split; eapply onearg_byte; eauto.
Qed.

Lemma twoargs_values str def min max v1 v2 :
  twoargs str def min max = Done (v1, v2) ->
  0 <= min -> max <= 255 -> min <= u8 def <= max ->
  min <= v1 <= max /\ min <= v2 <= max.
Proof.
  rewrite twoargs_unfold.
  destruct (onearg str "=" def min max) as [[a1 p]|e] eqn:E1; [|discriminate].
  destruct (onearg p "," a1 min max) as [[a2 p']|e] eqn:E2; [|discriminate].
  destruct (is_nil p'); [|discriminate].
  intros [= <- <-] Hmin Hmax Hdef.
  pose proof (onearg_byte _ _ _ _ _ _ _ E1) as B1.
  apply onearg_value in E1; [|lia..].
  apply onearg_value in E2; [|lia..].
  rewrite (u8_small a1) in E2 by lia.
  lia.
Qed.

Lemma twoargs_fatal str def min max e :
  twoargs str def min max = Fatal e -> is_decode_error e = true.
Proof.
  rewrite twoargs_unfold.
  destruct (onearg str "=" def min max) as [[a1 p]|e1] eqn:E1.
  - destruct (onearg p "," a1 min max) as [[a2 p']|e2] eqn:E2.
    + destruct (is_nil p'); [discriminate|now intros [= <-]].
    + intros [= <-]; eapply onearg_fatal; eauto.
  - intros [= <-]; eapply onearg_fatal; eauto.
Qed.

(** C6: [twoargs] (the specification's parse_pair) decodes the first
    value with prefix [=] and the supplied default, then the second with
    prefix [,] and the first stored value as its default, so that a single
    supplied value serves for both; text left over after the two values is
    the "malformed argument" failure. On ["=4,5"], ["=4"] and [""] with
    default 0 and bounds 0..15 it yields (4,5), (4,4) and (0,0). *)
Theorem twoargs_pair :
  (forall str def min max,
      twoargs str def min max =
      match onearg str "=" def min max with
      | Fatal e => Fatal e
      | Done (v1, p) =>
          match onearg p "," v1 min max with
          | Fatal e => Fatal e
          | Done (v2, p') =>
              if is_nil p' then Done (v1, v2)
              else Fatal (MalformedArgument str)
          end
      end)
  /\ (forall str def min max v1,
         onearg str "=" def min max = Done (v1, "") ->
         twoargs str def min max = Done (v1, v1))
  /\ (forall str def min max v1 p v2 p',
         onearg str "=" def min max = Done (v1, p) ->
         onearg p "," v1 min max = Done (v2, p') ->
         p' <> "" ->
         twoargs str def min max = Fatal (MalformedArgument str))
  /\ twoargs "=4,5" 0 0 15 = Done (4, 5)
  /\ twoargs "=4" 0 0 15 = Done (4, 4)
  /\ twoargs "" 0 0 15 = Done (0, 0).
Proof.
  split; [exact twoargs_unfold|].
  split; [|split; [|repeat split; reflexivity]].
  - intros str def min max v1 H.
    rewrite twoargs_unfold, H; simpl.
    now rewrite (u8_small v1) by (eapply onearg_byte; eauto).
  - intros str def min max v1 p v2 p' H1 H2 Hp.
    rewrite twoargs_unfold, H1, H2.
    destruct p'; [congruence|reflexivity].
Qed.

Lemma twoargs_pair_witness :
  (onearg "=7" "=" 0 0 15 = Done (7, "")
   /\ twoargs "=7" 0 0 15 = Done (7, 7))
  /\ (onearg "=4,5x" "=" 0 0 15 = Done (4, ",5x")
      /\ onearg ",5x" "," 4 0 15 = Done (5, "x")
      /\ "x" <> ""
      /\ twoargs "=4,5x" 0 0 15 = Fatal (MalformedArgument "=4,5x")).
Proof.
  split.
  - split; [reflexivity|].
    apply (proj1 (proj2 twoargs_pair) "=7" 0 0 15 7); reflexivity.
  - split; [reflexivity|]. split; [reflexivity|]. split; [discriminate|].
    apply (proj1 (proj2 (proj2 twoargs_pair)) "=4,5x" 0 0 15 4 ",5x" 5 "x");
      [reflexivity|reflexivity|discriminate].
Defined.

(** C7: [onearg] (the specification's parse_one). On empty text it
    returns the text unchanged, without error, and the byte it stores is
    the default converted to [u8]: the default itself when that is a byte,
    but 255 for the default -1 that the [query] command passes. Text that
    does not start with the prefix is the "bad argument" failure; a parsed
    number outside [min, max] is the "out of range" failure, which carries
    the parsed substring and the two bounds, as for ["=16"] with 0..15. *)
Theorem onearg_cases :
  onearg "" "=" (-1) 0 255 = Done (255, "")
  /\ (forall prefix def min max,
         onearg "" prefix def min max = Done (u8 def, ""))
  /\ (forall prefix def min max,
         0 <= def < 256 -> onearg "" prefix def min max = Done (def, ""))
  /\ (forall c str prefix def min max,
         c <> prefix ->
         onearg (String c str) prefix def min max
         = Fatal (BadArgument (String c str) prefix))
  /\ (forall str prefix def min max n len,
         strtol str = (n, S len) ->
         n < min \/ max < n ->
         onearg (String prefix str) prefix def min max
         = Fatal (OutOfRange (take (S len) str) min max))
  /\ onearg "=16" "=" 0 0 15 = Fatal (OutOfRange "16" 0 15)
  /\ fatal_text (OutOfRange "16" 0 15)
     = "revoco: argument `16' out of range (0-15)".
Proof.
  split; [reflexivity|].
  split; [reflexivity|].
  split; [intros; simpl; now rewrite u8_small|].
  split; [|split; [|split; reflexivity]].
  - intros c str prefix def min max Hc; simpl.
    destruct (Ascii.eqb c prefix) eqn:E; [|reflexivity].
    apply Ascii.eqb_eq in E; contradiction.
  - intros str prefix def min max n len Hs Hn; simpl.
    rewrite Ascii.eqb_refl, Hs; simpl.
    destruct ((n <? min) || (n >? max)) eqn:E; [reflexivity|].
    apply orb_false_elim in E as [E1 E2]; lia.
Qed.

Lemma onearg_cases_witness :
  (0 <= 3 < 256 /\ onearg "" "," 3 0 15 = Done (3, ""))
  /\ ("4"%char <> "="%char
      /\ onearg "4" "=" 0 0 15 = Fatal (BadArgument "4" "="))
  /\ (strtol "0x1f,2" = (31, 4%nat)
      /\ (31 < 0 \/ 15 < 31)
      /\ onearg "=0x1f,2" "=" 0 0 15 = Fatal (OutOfRange "0x1f" 0 15)).
Proof.
  split; [|split].
  - split; [lia|].
    apply (proj1 (proj2 (proj2 onearg_cases)) ","%char 3 0 15); lia.
  - split; [discriminate|].
    apply (proj1 (proj2 (proj2 (proj2 onearg_cases))) "4"%char ""
                 "="%char 0 0 15); discriminate.
  - split; [reflexivity|]. split; [right; lia|].
    apply (proj1 (proj2 (proj2 (proj2 (proj2 onearg_cases)))) "0x1f,2"
                 "="%char 0 0 15 31 3%nat); [reflexivity|right; lia].
Defined.

(** ** Computations *)

Lemma after_nil w : after w [] = w.
Proof. destruct w; unfold after; simpl; now rewrite app_nil_r. Qed.

Lemma bind_run {A B} (m : M A) (k : A -> M B) w a w1 :
  m w = (Done a, w1) -> IO.bind m k w = k a w1.
Proof. unfold IO.bind; now intros ->. Qed.

Lemma bind_fatal {A B} (m : M A) (k : A -> M B) w e w1 :
  m w = (Fatal e, w1) -> IO.bind m k w = (Fatal e, w1).
Proof. unfold IO.bind; now intros ->. Qed.

Lemma printf_run text w : printf text w = (Done tt, after w [Print text]).
Proof. reflexivity. Qed.

Lemma for_each_print {A} (f : A -> string) (l : list A) w :
  IO.for_each l (fun a => printf (f a)) w
  = (Done tt, after w (map (fun a => Print (f a)) l)).
Proof.
  revert w; induction l as [|a l IH]; intros w; simpl.
  - unfold IO.ret; now rewrite after_nil.
  - unfold IO.bind, printf, IO.emit at 1.
    rewrite IH; unfold after; simpl; now rewrite <- app_assoc.
Qed.

Lemma for_each_printf (l : list string) w :
  IO.for_each l printf w = (Done tt, after w (map Print l)).
Proof. apply (for_each_print (fun a => a)). Qed.

(** [send_report] on a buffer that starts with the [n] payload bytes. *)
Lemma send_report_payload id (payload rest : list Z) w :
  send_report id (payload ++ rest) (Z.of_nat (List.length payload)) w
  = (Done tt, after w [Write (u8 id :: payload)]).
Proof.
  unfold send_report, IO.emit, after.
  replace (Z.to_nat (Z.of_nat (List.length payload) + 1))
    with (S (List.length payload)) by lia.
  rewrite Nat2Z.id, firstn_app, firstn_all, Nat.sub_diag, firstn_O, app_nil_r.
  now rewrite firstn_cons, firstn_all.
Qed.

(** [send_report] for any [n] that a caller passes: [n + 1] bytes. *)
Lemma send_report_count id (buf : list Z) n w :
  -1 <= n <= Z.of_nat (List.length buf) ->
  exists bytes,
    send_report id buf n w = (Done tt, after w [Write bytes])
    /\ Z.of_nat (List.length bytes) = n + 1
    /\ (0 <= n -> bytes = u8 id :: firstn (Z.to_nat n) buf).
Proof.
  intros Hn. unfold send_report, IO.emit. eexists. split; [reflexivity|].
  split.
  - rewrite length_firstn. cbn [List.length]. rewrite length_firstn. lia.
  - intros H0.
    replace (Z.to_nat (n + 1)) with (S (Z.to_nat n)) by lia.
    rewrite firstn_cons. f_equal. apply firstn_all2.
    rewrite length_firstn. lia.
Qed.

Lemma mx_cmd_run b1 b2 b3 w :
  mx_cmd b1 b2 b3 w
  = (Done tt,
     after w [Write [0x10; first_byte w; 0x80; 0x56; u8 b1; u8 b2; u8 b3]]).
Proof. reflexivity. Qed.

Lemma manual_cmd_run perm arg1 arg2 w :
  manual_cmd perm arg1 arg2 w
  = (Done tt,
     after w [Write [0x10; first_byte w; 0x80; 0x56;
                     u8 (perm + if arg1 =? arg2 then 8 else 7);
                     u8 (if arg1 =? arg2 then arg1 else arg1 * 16 + arg2);
                     0]]).
Proof.
  unfold manual_cmd; destruct (arg1 =? arg2); simpl; apply mx_cmd_run.
Qed.

(** [mx_query] sends the query, reads seven bytes, and returns whether
    the shifted answer passes the test, together with that answer. *)
Lemma mx_query_run b1 w :
  let res := shift_answer (next_answer 7 w) in
  exists es,
    mx_query b1 w
    = (Done (negb (bad_answer res), res),
       mkWorld (first_byte w)
               (trace w
                ++ Write [0x10; first_byte w; 0x81; u8 b1; 0; 0; 0]
                   :: Read 7 :: es)
               (tl (device w))).
Proof.
  intros res. unfold mx_query.
  rewrite (bind_run _ _ w (first_byte w) w) by reflexivity.
  rewrite (bind_run _ _ w tt
             (after w [Write [0x10; first_byte w; 0x81; u8 b1; 0; 0; 0]]))
    by reflexivity.
  rewrite (bind_run _ _ _ (next_answer 7 w)
             (mkWorld (first_byte w)
                (trace w ++ [Write [0x10; first_byte w; 0x81; u8 b1; 0; 0; 0];
                             Read 7])
                (tl (device w)))).
  2: { unfold query_report, IO.read, after; simpl.
       now rewrite <- app_assoc. }
  fold res. destruct (bad_answer res).
  - rewrite (bind_run _ _ _ _ _ (printf_run _ _)).
    rewrite (bind_run _ _ _ _ _
               (for_each_print
                  (fun i => (hex2 true (byte_at res i) ++ " ")%string) _ _)).
    rewrite (bind_run _ _ _ _ _ (printf_run _ _)).
    unfold IO.ret, after; simpl trace; simpl device; simpl first_byte.
    eexists. repeat rewrite <- app_assoc. simpl app. reflexivity.
  - exists []. reflexivity.
Qed.

(** The test of [mx_query], solved: which answers pass. *)
Lemma bad_answer_false res :
  bad_answer res = false
  <-> In (byte_at res 0) [0x00; 0x01; 0x02]
      /\ byte_at res 1 = 0x81
      /\ In (byte_at res 2) [0xb1; 0x08; 0x0d].
Proof.
  unfold bad_answer; simpl.
  destruct (Z.eqb_spec (byte_at res 0) 2), (Z.eqb_spec (byte_at res 0) 1),
    (Z.eqb_spec (byte_at res 0) 0), (Z.eqb_spec (byte_at res 1) 129),
    (Z.eqb_spec (byte_at res 2) 177), (Z.eqb_spec (byte_at res 2) 8),
    (Z.eqb_spec (byte_at res 2) 13); simpl; intuition (try lia; try congruence).
Qed.

(** ** Answers to queries *)

(** When the [read] of [mx_query] fills its 7 bytes, the shifted answer
    is the six bytes of the device's answer that follow the echoed id. *)
Lemma shift_full_answer w :
  delivers 7 w ->
  shift_answer (next_answer 7 w)
  = firstn 6 (tl (map u8 (hd [] (device w)))).
Proof.
  unfold delivers, next_answer. intros H.
  destruct (hd [] (device w)) as [|a0 [|a1 [|a2 [|a3 [|a4 [|a5 [|a6 l]]]]]]];
    simpl in H; try lia.
  reflexivity.
Qed.

(** C1, as the code has it, for an answer of at least 7 bytes: whatever
    the subcode [b1] of the query, and so for a mode query and for a
    battery query alike, [mx_query] accepts the answer exactly when,
    after the echoed report id is dropped, byte 0 is 0x00, 0x01 or 0x02,
    byte 1 is 0x81 and byte 2 is one of 0xb1, 0x08 and 0x0d; otherwise
    it returns 0. The accepted subcodes are the union of the two sets,
    not the set of the query's own kind. *)
Theorem mx_query_acceptance (b1 : Z) (w : world) :
  delivers 7 w ->
  let res := firstn 6 (tl (map u8 (hd [] (device w)))) in
  (mx_query_accepts b1 w
   <-> In (byte_at res 0) [0x00; 0x01; 0x02]
       /\ byte_at res 1 = 0x81
       /\ In (byte_at res 2) [0xb1; 0x08; 0x0d])
  /\ (~ mx_query_accepts b1 w ->
      exists w', mx_query b1 w = (Done (false, res), w')).
Proof.
  intros Hfull res. destruct (mx_query_run b1 w) as [es Hrun].
  rewrite (shift_full_answer w Hfull) in Hrun. fold res in Hrun.
  rewrite <- bad_answer_false. unfold mx_query_accepts. split; [split|].
  - intros (r & w' & H). rewrite Hrun in H.
    destruct (bad_answer res); [discriminate|reflexivity].
  - intros H. rewrite H in Hrun. eauto.
  - intros H. destruct (bad_answer res); [eauto|].
    exfalso; apply H; eauto.
Qed.

Lemma mx_query_acceptance_witness :
  delivers 7 (start 2 [[0x10; 0x02; 0x81; 0x0d; 0x50; 0x00; 0x30]])
  /\ mx_query_accepts 0x0d
       (start 2 [[0x10; 0x02; 0x81; 0x0d; 0x50; 0x00; 0x30]]).
Proof.
  split; [vm_compute; repeat constructor|].
  apply (proj1 (mx_query_acceptance 0x0d
                  (start 2 [[0x10; 0x02; 0x81; 0x0d; 0x50; 0x00; 0x30]])
                  ltac:(vm_compute; repeat constructor))).
  vm_compute. repeat split; auto.
Defined.

(** C1 as the specification states it fails, also for answers of 7
    bytes: a mode query whose answer carries the battery subcode 0x0d,
    which is not in the mode set {0xb1, 0x08}, is accepted. *)
Lemma mode_query_accepts_battery_subcode :
  ~ (forall (k : query_kind) (w : world),
        delivers 7 w ->
        (mx_query_accepts (query_subcode k) w
         <-> spec_accepts k (firstn 6 (tl (map u8 (hd [] (device w))))))).
Proof.
  intros H.
  destruct (H QueryMode (start 1 [[0x10; 0x01; 0x81; 0x0d; 0; 0; 1]])
              ltac:(vm_compute; repeat constructor))
    as [Hacc _].
  assert (Hyes : mx_query_accepts (query_subcode QueryMode)
                   (start 1 [[0x10; 0x01; 0x81; 0x0d; 0; 0; 1]])).
  { unfold mx_query_accepts. eexists; eexists. vm_compute. reflexivity. }
  destruct (Hacc Hyes) as (_ & _ & Hsub).
  vm_compute in Hsub. intuition discriminate.
Qed.

(** ** Button bindings *)

(** C3: for buttons [up] and [down] in 0..15 and [perm] the persistence
    bit (0x80 or 0), the [manual] command sends, when the buttons differ,
    opcode [perm + 7] with the byte [up * 16 + down] and a zero third
    byte, and when they are equal opcode [perm + 8] with the byte [up];
    in that case the opcode is not 7. *)
Theorem manual_buttons_encoding (w : world) (perm up down : Z) :
  0 <= up <= 15 -> 0 <= down <= 15 -> perm = 0 \/ perm = 0x80 ->
  (up <> down ->
   manual_cmd perm up down w
   = (Done tt,
      after w [Write [0x10; first_byte w; 0x80; 0x56;
                      perm + 7; up * 16 + down; 0]])
   /\ Z.land (perm + 7) 0x7f = 7)
  /\ (up = down ->
      manual_cmd perm up down w
      = (Done tt,
         after w [Write [0x10; first_byte w; 0x80; 0x56; perm + 8; up; 0]])
      /\ Z.land (perm + 8) 0x7f = 8
      /\ perm + 8 <> perm + 7).
Proof.
  intros Hup Hdown Hperm. rewrite manual_cmd_run. split; intros Hud.
  - apply Z.eqb_neq in Hud; rewrite Hud.
    rewrite (u8_small (up * 16 + down)) by lia.
    destruct Hperm; subst perm; split; reflexivity.
  - apply Z.eqb_eq in Hud; rewrite Hud.
    rewrite (u8_small up) by lia.
    destruct Hperm; subst perm; repeat split; lia.
Qed.

Lemma manual_buttons_encoding_witness :
  (manual_cmd 0x80 4 5 (start 1 [])
   = (Done tt, after (start 1 []) [Write [0x10; 1; 0x80; 0x56; 0x87; 0x45; 0]]))
  /\ (manual_cmd 0 3 3 (start 1 [])
      = (Done tt, after (start 1 []) [Write [0x10; 1; 0x80; 0x56; 8; 3; 0]])).
Proof.
  split.
  - apply (proj1 (manual_buttons_encoding (start 1 []) 0x80 4 5
                    ltac:(lia) ltac:(lia) (or_intror eq_refl))).
    lia.
  - apply (proj2 (manual_buttons_encoding (start 1 []) 0 3 3
                    ltac:(lia) ltac:(lia) (or_introl eq_refl))).
    reflexivity.
Defined.

(** C8: for buttons [u] and [d] in 0..15 with [u <> d], the byte that
    the [manual] command sends after the opcode decodes, by division and
    remainder by 16, to [(u, d)] again. *)
Theorem manual_buttons_roundtrip (w : world) (perm u d : Z) :
  0 <= u <= 15 -> 0 <= d <= 15 -> u <> d -> perm = 0 \/ perm = 0x80 ->
  exists op byte,
    manual_cmd perm u d w
    = (Done tt,
       after w [Write [0x10; first_byte w; 0x80; 0x56; op; byte; 0]])
    /\ Z.land op 0x7f = 7
    /\ spec_decode_buttons byte = (u, d).
Proof.
  intros Hu Hd Hud Hperm.
  exists (perm + 7), (u * 16 + d).
  rewrite manual_cmd_run.
  apply Z.eqb_neq in Hud; rewrite Hud.
  rewrite (u8_small (u * 16 + d)) by lia.
  split; [|split].
  - destruct Hperm; subst perm; reflexivity.
  - destruct Hperm; subst perm; reflexivity.
  - unfold spec_decode_buttons. f_equal.
    + rewrite Z.div_add_l by lia. rewrite Z.div_small; lia.
    + rewrite Z.add_comm, Z.mod_add by lia. apply Z.mod_small; lia.
Qed.

Lemma manual_buttons_roundtrip_witness :
  exists op byte,
    manual_cmd 0x80 9 11 (start 2 [])
    = (Done tt, after (start 2 []) [Write [0x10; 2; 0x80; 0x56; op; byte; 0]])
    /\ Z.land op 0x7f = 7
    /\ spec_decode_buttons byte = (9, 11).
Proof.
  apply (manual_buttons_roundtrip (start 2 []) 0x80 9 11);
    [lia|lia|lia|right; reflexivity].
Defined.

(** ** The discriminant *)

Lemma keeps_ret {A} (a : A) : keeps_first_byte (IO.ret a).
Proof. intros w; reflexivity. Qed.

Lemma keeps_lift {A} (r : outcome A) : keeps_first_byte (IO.lift r).
Proof. intros w; reflexivity. Qed.

Lemma keeps_emit e : keeps_first_byte (IO.emit e).
Proof. intros w; reflexivity. Qed.

Lemma keeps_get : keeps_first_byte IO.get_first_byte.
Proof. intros w; reflexivity. Qed.

Lemma keeps_read count : keeps_first_byte (IO.read count).
Proof. intros w; reflexivity. Qed.

Lemma keeps_bind {A B} (m : M A) (k : A -> M B) :
  keeps_first_byte m -> (forall a, keeps_first_byte (k a)) ->
  keeps_first_byte (IO.bind m k).
Proof.
  intros Hm Hk w. unfold IO.bind. specialize (Hm w).
  destruct (m w) as [[a|e] w1]; simpl in *; [|assumption].
  now rewrite Hk.
Qed.

Lemma keeps_for_each {A} (l : list A) (body : A -> M unit) :
  (forall a, keeps_first_byte (body a)) -> keeps_first_byte (IO.for_each l body).
Proof.
  intros Hb; induction l; simpl; [apply keeps_ret|].
  apply keeps_bind; auto.
Qed.

Create HintDb keeps.
#[local] Hint Resolve keeps_ret keeps_lift keeps_emit keeps_get keeps_read
  keeps_for_each : keeps.

Ltac keeps :=
  repeat (intros;
          match goal with
          | |- keeps_first_byte (IO.bind _ _) => apply keeps_bind
          | |- keeps_first_byte (if ?c then _ else _) => destruct c
          | |- keeps_first_byte (match ?x with (_, _) => _ end) => destruct x
          | |- keeps_first_byte _ => solve [auto with keeps]
          end).

Lemma keeps_printf text : keeps_first_byte (printf text).
Proof. apply keeps_emit. Qed.

Lemma keeps_send_report id buf n : keeps_first_byte (send_report id buf n).
Proof. apply keeps_emit. Qed.

Lemma keeps_query_report id n : keeps_first_byte (query_report id n).
Proof. apply keeps_read. Qed.

#[local] Hint Resolve keeps_printf keeps_send_report keeps_query_report : keeps.

Lemma keeps_mx_cmd b1 b2 b3 : keeps_first_byte (mx_cmd b1 b2 b3).
Proof. unfold mx_cmd; keeps. Qed.

Lemma keeps_mx_query b1 : keeps_first_byte (mx_query b1).
Proof. unfold mx_query; keeps. Qed.

#[local] Hint Resolve keeps_mx_cmd keeps_mx_query : keeps.

Lemma keeps_configure_arg argv_i : keeps_first_byte (configure_arg argv_i).
Proof.
  unfold configure_arg, manual_cmd, mode_cmd, battery_cmd, query_cmd,
    query_dump.
  keeps.
Qed.

Lemma keeps_configure_loop args : keeps_first_byte (configure_loop args).
Proof.
  induction args; simpl; [apply keeps_ret|].
  apply keeps_bind; auto using keeps_configure_arg.
Qed.

(** [open_dev] touches nothing but [first_byte], and returns a handle
    exactly when it has set it to 1 or 2. *)
Lemma open_dev_loop_first_byte nodes :
  forall i w r w',
    first_byte w = 0 ->
    open_dev_loop nodes i w = (r, w') ->
    trace w' = trace w /\ device w' = device w
    /\ match r with
       | Done (Some _) => first_byte w' = 1 \/ first_byte w' = 2
       | Done None => first_byte w' = 0
       | Fatal _ => False
       end.
Proof.
  induction nodes as [|node nodes IH]; intros i w r w' Hw; simpl.
  - intros [= <- <-]; auto.
  - destruct node as [dinfo|]; [|now apply IH].
    destruct (vendor dinfo =? LOGITECH); [|now apply IH].
    unfold IO.bind at 1.
    destruct (_ || _).
    + intros [= <- <-]; simpl; auto.
    + destruct (product dinfo =? MX_5500).
      * intros [= <- <-]; simpl; auto.
      * unfold IO.ret at 1, IO.bind, IO.get_first_byte.
        rewrite Hw; simpl. now apply IH.
Qed.

(** C5: [send_report] writes the report id followed by the payload as it
    is, one byte more than the payload, whenever it is called with the
    length [n >= 0] of a payload, and for every [n >= -1] it writes
    [n + 1] bytes; [mx_cmd] sends under report id 0x10 a payload of
    exactly 6 bytes that starts with [first_byte]; and in every world
    that [configure] reaches after [open_dev] has returned a handle,
    [first_byte] is the discriminant 1 or 2. But not every write of the
    program has this shape: the [raw] command without values calls
    [send_report] with [n = -1], and the write it makes carries no byte,
    not even the report id. *)
Theorem outbound_report_shape :
  (forall w, configure_arg "raw" w = (Done tt, after w [Write []]))
  /\ (forall id (payload rest : list Z) w,
         send_report id (payload ++ rest) (Z.of_nat (List.length payload)) w
         = (Done tt, after w [Write (u8 id :: payload)])
         /\ List.length (u8 id :: payload) = S (List.length payload))
  /\ (forall id (buf : list Z) n w,
         -1 <= n <= Z.of_nat (List.length buf) ->
         exists bytes,
           send_report id buf n w = (Done tt, after w [Write bytes])
           /\ Z.of_nat (List.length bytes) = n + 1
           /\ (0 <= n -> bytes = u8 id :: firstn (Z.to_nat n) buf))
  /\ (forall b1 b2 b3 w,
         exists payload,
           mx_cmd b1 b2 b3 w = (Done tt, after w [Write (0x10 :: payload)])
           /\ List.length payload = 6%nat
           /\ hd 0 payload = first_byte w)
  /\ (forall nodes args w0 fd w r w1,
         first_byte w0 = 0 ->
         open_dev nodes w0 = (Done (Some fd), w) ->
         configure_loop args w = (r, w1) ->
         first_byte w1 = 1 \/ first_byte w1 = 2).
Proof.
  split; [|split; [|split; [|split]]].
  - intros w.
    assert (Hn : nargs "" 256 0 0 255 = Done (0, repeat 0 256))
      by (vm_compute; reflexivity).
    change (configure_arg "raw")
      with (IO.bind (IO.lift (nargs "" 256 0 0 255))
              (fun x => let '(i, buf) := x in
                        send_report (byte_at buf 0) (tl buf) (u8 i - 1))).
    unfold IO.bind, IO.lift. rewrite Hn. reflexivity.
  - intros; split; [apply send_report_payload|reflexivity].
  - exact send_report_count.
  - intros b1 b2 b3 w. eexists. rewrite mx_cmd_run.
    split; [reflexivity|]. split; reflexivity.
  - intros nodes args w0 fd w r w1 H0 Hopen Hrun.
    apply open_dev_loop_first_byte in Hopen as (_ & _ & Hfb); [|assumption].
    pose proof (keeps_configure_loop args w) as K.
    rewrite Hrun in K; simpl in K. now rewrite K.
Qed.

Lemma outbound_report_shape_witness :
  (-1 <= 2 <= Z.of_nat (List.length [1; 2; 3])
   /\ exists bytes,
       send_report 0x10 [1; 2; 3] 2 (start 1 [])
       = (Done tt, after (start 1 []) [Write bytes])
       /\ Z.of_nat (List.length bytes) = 2 + 1
       /\ (0 <= 2 -> bytes = u8 0x10 :: firstn (Z.to_nat 2) [1; 2; 3]))
  /\ first_byte (start 0 []) = 0
  /\ open_dev [None; Some (mkDevinfo LOGITECH MX_5500)] (start 0 [])
     = (Done (Some 1%nat), start 2 [])
  /\ configure_loop ["temp-free"] (start 2 [])
     = (Done tt, after (start 2 []) [Write [0x10; 2; 0x80; 0x56; 1; 0; 0]])
  /\ (first_byte (after (start 2 []) [Write [0x10; 2; 0x80; 0x56; 1; 0; 0]]) = 1
      \/ first_byte (after (start 2 []) [Write [0x10; 2; 0x80; 0x56; 1; 0; 0]]) = 2).
Proof.
  split.
  - split; [simpl; lia|].
    apply (proj1 (proj2 (proj2 outbound_report_shape))
             0x10 [1; 2; 3] 2 (start 1 [])).
    simpl; lia.
  - split; [reflexivity|]. split; [reflexivity|]. split; [reflexivity|].
    apply (proj2 (proj2 (proj2 (proj2 outbound_report_shape)))
             [None; Some (mkDevinfo LOGITECH MX_5500)] ["temp-free"]
             (start 0 []) 1%nat (start 2 []) (Done tt)
             (after (start 2 []) [Write [0x10; 2; 0x80; 0x56; 1; 0; 0]]));
      reflexivity.
Defined.

(** ** Which computations call [fatal], and when *)

Lemma never_fatal_ret {A} (a : A) : never_fatal (IO.ret a).
Proof. intros w; unfold IO.ret; eauto. Qed.

Lemma never_fatal_emit e : never_fatal (IO.emit e).
Proof. intros w; unfold IO.emit; eauto. Qed.

Lemma never_fatal_get : never_fatal IO.get_first_byte.
Proof. intros w; unfold IO.get_first_byte; eauto. Qed.

Lemma never_fatal_read count : never_fatal (IO.read count).
Proof. intros w; unfold IO.read; eauto. Qed.

Lemma never_fatal_bind {A B} (m : M A) (k : A -> M B) :
  never_fatal m -> (forall a, never_fatal (k a)) -> never_fatal (IO.bind m k).
Proof.
  intros Hm Hk w. destruct (Hm w) as (a & w1 & H1).
  rewrite (bind_run _ _ _ _ _ H1). apply Hk.
Qed.

Lemma never_fatal_for_each {A} (l : list A) (body : A -> M unit) :
  (forall a, never_fatal (body a)) -> never_fatal (IO.for_each l body).
Proof.
  intros Hb; induction l; simpl; [apply never_fatal_ret|].
  apply never_fatal_bind; auto.
Qed.

Create HintDb total.
#[local] Hint Resolve never_fatal_ret never_fatal_emit never_fatal_get
  never_fatal_read never_fatal_for_each : total.

Ltac total :=
  repeat (intros;
          match goal with
          | |- never_fatal (IO.bind _ _) => apply never_fatal_bind
          | |- never_fatal (if ?c then _ else _) => destruct c
          | |- never_fatal (match ?x with (_, _) => _ end) => destruct x
          | |- never_fatal _ => solve [auto with total]
          end).

Lemma never_fatal_printf text : never_fatal (printf text).
Proof. apply never_fatal_emit. Qed.

Lemma never_fatal_send_report id buf n : never_fatal (send_report id buf n).
Proof. apply never_fatal_emit. Qed.

Lemma never_fatal_query_report id n : never_fatal (query_report id n).
Proof. apply never_fatal_read. Qed.

#[local] Hint Resolve never_fatal_printf never_fatal_send_report
  never_fatal_query_report : total.

Lemma never_fatal_mx_cmd b1 b2 b3 : never_fatal (mx_cmd b1 b2 b3).
Proof. unfold mx_cmd; total. Qed.

Lemma never_fatal_mx_query b1 : never_fatal (mx_query b1).
Proof. unfold mx_query; total. Qed.

#[local] Hint Resolve never_fatal_mx_cmd never_fatal_mx_query : total.

Lemma never_fatal_manual_cmd perm arg1 arg2 :
  never_fatal (manual_cmd perm arg1 arg2).
Proof. unfold manual_cmd; total. Qed.

Lemma never_fatal_mode_cmd : never_fatal mode_cmd.
Proof. unfold mode_cmd; total. Qed.

Lemma never_fatal_battery_cmd : never_fatal battery_cmd.
Proof. unfold battery_cmd; total. Qed.

Lemma never_fatal_query_cmd arg1 arg2 : never_fatal (query_cmd arg1 arg2).
Proof. unfold query_cmd, query_dump; total. Qed.

#[local] Hint Resolve never_fatal_manual_cmd never_fatal_mode_cmd
  never_fatal_battery_cmd never_fatal_query_cmd : total.

Lemma never_fatal_clean {A} (m : M A) : never_fatal m -> fatal_does_nothing m.
Proof.
  intros Hm w e w' H. destruct (Hm w) as (a & w1 & H1). congruence.
Qed.

(** A command that decodes its arguments first and cannot fail after
    that has done nothing when the decoding fails. *)
Lemma decode_first_clean {A B} (r : outcome A) (k : A -> M B) :
  (forall a, never_fatal (k a)) -> fatal_does_nothing (IO.bind (IO.lift r) k).
Proof.
  intros Hk w e w'. unfold IO.bind, IO.lift. destruct r as [a|e0].
  - destruct (Hk a w) as (b & w1 & H1). congruence.
  - now intros [= _ <-].
Qed.

(** The dispatch of [configure], with [perm] and [cmd] named. *)
Lemma configure_arg_unfold argv_i :
  configure_arg argv_i =
  let perm := perm_of argv_i in
  let cmd := command_of argv_i in
  (if streq cmd "free" then mx_cmd (perm + 1) 0 0
   else if streq cmd "click" then mx_cmd (perm + 2) 0 0
   else if strneq cmd "manual" 6 then
     ' (arg1, arg2) <- IO.lift (twoargs (advance 6 cmd) 0 0 15) ;;
     manual_cmd perm arg1 arg2
   else if strneq cmd "auto" 4 then
     ' (arg1, arg2) <- IO.lift (twoargs (advance 4 cmd) 0 0 50) ;;
     mx_cmd (perm + 5) arg1 arg2
   else if strneq argv_i "soft-free" 9 then
     ' (arg1, arg2) <- IO.lift (twoargs (advance 9 argv_i) 0 0 255) ;;
     mx_cmd 3 arg1 arg2
   else if strneq argv_i "soft-click" 10 then
     ' (arg1, arg2) <- IO.lift (twoargs (advance 10 argv_i) 0 0 255) ;;
     mx_cmd 4 arg1 arg2
   else if strneq argv_i "reconnect" 9 then
     ' (arg1, arg2) <- IO.lift (twoargs (advance 9 argv_i) 0 0 255) ;;
     send_report 0x10 reconnect_cmd 6 ;;
     IO.for_each reconnect_text printf
   else if strneq argv_i "mode" 4 then mode_cmd
   else if strneq argv_i "battery" 7 then battery_cmd
   else if strneq argv_i "raw" 3 then
     ' (i, buf) <- IO.lift (nargs (advance 3 argv_i) 256 0 0 255) ;;
     let n := u8 i in
     send_report (byte_at buf 0) (tl buf) (n - 1)
   else if strneq argv_i "query" 5 then
     ' (arg1, arg2) <- IO.lift (twoargs (advance 5 argv_i) (-1) 0 255) ;;
     query_cmd arg1 arg2
   else if strneq argv_i "sleep" 5 then
     ' (arg1, arg2) <- IO.lift (twoargs (advance 5 argv_i) 1 0 255) ;;
     IO.emit (Sleep arg1)
   else IO.lift (Fatal (UnknownOption argv_i)))%io.
Proof.
  unfold configure_arg, perm_of, command_of, has_temp.
  destruct (strneq argv_i "temp-" 5); reflexivity.
Qed.

(** Whatever the token, [configure] has written and read nothing for it
    when it calls [fatal]. *)
Lemma configure_arg_clean argv_i : fatal_does_nothing (configure_arg argv_i).
Proof.
  rewrite configure_arg_unfold. cbv zeta.
  repeat match goal with
         | |- fatal_does_nothing (if ?c then _ else _) => destruct c
         | |- fatal_does_nothing (IO.bind (IO.lift _) _) =>
             apply decode_first_clean; intros []; total
         | |- fatal_does_nothing (IO.lift _) => now intros w e w' [= _ <-]
         | |- fatal_does_nothing _ => apply never_fatal_clean; total
         end.
Qed.

(** The command whose token is [name] followed by the argument text. *)
Lemma configure_arg_manual s :
  configure_arg ("manual" ++ s)
  = (' (arg1, arg2) <- IO.lift (twoargs s 0 0 15) ;;
     manual_cmd 0x80 arg1 arg2)%io.
Proof. reflexivity. Qed.

Lemma configure_arg_temp_manual s :
  configure_arg ("temp-manual" ++ s)
  = (' (arg1, arg2) <- IO.lift (twoargs s 0 0 15) ;;
     manual_cmd 0 arg1 arg2)%io.
Proof. reflexivity. Qed.

Lemma configure_arg_auto s :
  configure_arg ("auto" ++ s)
  = (' (arg1, arg2) <- IO.lift (twoargs s 0 0 50) ;;
     mx_cmd (0x80 + 5) arg1 arg2)%io.
Proof. reflexivity. Qed.

Lemma configure_arg_temp_auto s :
  configure_arg ("temp-auto" ++ s)
  = (' (arg1, arg2) <- IO.lift (twoargs s 0 0 50) ;;
     mx_cmd (0 + 5) arg1 arg2)%io.
Proof. reflexivity. Qed.

Lemma configure_arg_soft_free s :
  configure_arg ("soft-free" ++ s)
  = (' (arg1, arg2) <- IO.lift (twoargs s 0 0 255) ;; mx_cmd 3 arg1 arg2)%io.
Proof. reflexivity. Qed.

Lemma configure_arg_soft_click s :
  configure_arg ("soft-click" ++ s)
  = (' (arg1, arg2) <- IO.lift (twoargs s 0 0 255) ;; mx_cmd 4 arg1 arg2)%io.
Proof. reflexivity. Qed.

Lemma configure_arg_reconnect s :
  configure_arg ("reconnect" ++ s)
  = (' (arg1, arg2) <- IO.lift (twoargs s 0 0 255) ;;
     send_report 0x10 reconnect_cmd 6 ;;
     IO.for_each reconnect_text printf)%io.
Proof. reflexivity. Qed.

Lemma configure_arg_query s :
  configure_arg ("query" ++ s)
  = (' (arg1, arg2) <- IO.lift (twoargs s (-1) 0 255) ;;
     query_cmd arg1 arg2)%io.
Proof. reflexivity. Qed.

(** ** The persistence bit *)

Lemma persistence_bit_general :
  (forall argv_i w w',
      configure_arg argv_i w = (Done tt, w') ->
      let cmd := command_of argv_i in
      let perm := perm_of argv_i in
      streq cmd "free" || streq cmd "click"
      || strneq cmd "manual" 6 || strneq cmd "auto" 4 = true ->
      exists base b2 b3,
        w' = after w [Write [0x10; first_byte w; 0x80; 0x56;
                             perm + base; b2; b3]]
        /\ Z.testbit (perm + base) 7 = negb (has_temp argv_i)
        /\ Z.land (perm + base) 0x7f = base
        /\ (streq cmd "free" = true /\ base = 1
            \/ streq cmd "click" = true /\ base = 2
            \/ strneq cmd "manual" 6 = true /\ (base = 7 \/ base = 8)
            \/ strneq cmd "auto" 4 = true /\ base = 5))
  /\ (forall argv_i w w',
         configure_arg argv_i w = (Done tt, w') ->
         strneq argv_i "soft-free" 9 = true ->
         exists b2 b3,
           w' = after w [Write [0x10; first_byte w; 0x80; 0x56; 3; b2; b3]])
  /\ (forall argv_i w w',
         configure_arg argv_i w = (Done tt, w') ->
         strneq argv_i "soft-click" 10 = true ->
         exists b2 b3,
           w' = after w [Write [0x10; first_byte w; 0x80; 0x56; 4; b2; b3]])
  /\ (forall s w,
         configure_arg ("temp-soft-free" ++ s) w
         = (Fatal (UnknownOption ("temp-soft-free" ++ s)), w)
         /\ configure_arg ("temp-soft-click" ++ s) w
            = (Fatal (UnknownOption ("temp-soft-click" ++ s)), w)).
Proof.
  split; [|split; [|split]].
  - intros argv_i w w' Hrun cmd perm Hmode.
    rewrite configure_arg_unfold in Hrun. cbv zeta in Hrun.
    fold cmd perm in Hrun.
    assert (Hperm : forall base, In base [1; 2; 5; 7; 8] ->
              u8 (perm + base) = perm + base
              /\ Z.testbit (perm + base) 7 = negb (has_temp argv_i)
              /\ Z.land (perm + base) 0x7f = base).
    { unfold perm, perm_of. intros base Hb.
      destruct (has_temp argv_i); simpl in Hb;
        repeat (destruct Hb as [<-|Hb]; [repeat split; reflexivity|]);
        contradiction. }
    destruct (streq cmd "free") eqn:Efree.
    { rewrite mx_cmd_run in Hrun. injection Hrun as <-.
      destruct (Hperm 1) as (-> & Hbit & Hland); [simpl; auto|].
      exists 1, (u8 0), (u8 0). auto 10. }
    destruct (streq cmd "click") eqn:Eclick.
    { rewrite mx_cmd_run in Hrun. injection Hrun as <-.
      destruct (Hperm 2) as (-> & Hbit & Hland); [simpl; auto|].
      exists 2, (u8 0), (u8 0). auto 10. }
    destruct (strneq cmd "manual" 6) eqn:Emanual.
    { unfold IO.bind, IO.lift in Hrun.
      destruct (twoargs (advance 6 cmd) 0 0 15) as [[a1 a2]|e];
        [|discriminate].
      rewrite manual_cmd_run in Hrun. injection Hrun as <-.
      destruct (a1 =? a2).
      - destruct (Hperm 8) as (-> & Hbit & Hland); [simpl; auto 6|].
        exists 8, (u8 a1), 0. auto 12.
      - destruct (Hperm 7) as (-> & Hbit & Hland); [simpl; auto 6|].
        exists 7, (u8 (a1 * 16 + a2)), 0. auto 12. }
    destruct (strneq cmd "auto" 4) eqn:Eauto; [|discriminate].
    unfold IO.bind, IO.lift in Hrun.
    destruct (twoargs (advance 4 cmd) 0 0 50) as [[a1 a2]|e]; [|discriminate].
    rewrite mx_cmd_run in Hrun. injection Hrun as <-.
    destruct (Hperm 5) as (-> & Hbit & Hland); [simpl; auto 6|].
    exists 5, (u8 a1), (u8 a2). auto 12.
  - intros argv_i w w' Hrun Hsoft.
    apply (strneq_prefix "soft-free") in Hsoft. rewrite Hsoft in Hrun.
    rewrite configure_arg_soft_free in Hrun.
    unfold IO.bind, IO.lift in Hrun.
    destruct (twoargs _ 0 0 255) as [[a1 a2]|e]; [|discriminate].
    rewrite mx_cmd_run in Hrun. injection Hrun as <-. eauto.
  - intros argv_i w w' Hrun Hsoft.
    apply (strneq_prefix "soft-click") in Hsoft. rewrite Hsoft in Hrun.
    rewrite configure_arg_soft_click in Hrun.
    unfold IO.bind, IO.lift in Hrun.
    destruct (twoargs _ 0 0 255) as [[a1 a2]|e]; [|discriminate].
    rewrite mx_cmd_run in Hrun. injection Hrun as <-. eauto.
  - intros s w; split; reflexivity.
Qed.

(** C4: the mode-setting commands send their opcode with the
    persistence bit 0x80 exactly when the token has no [temp-] prefix:
    [free] 0x81 and [temp-free] 0x01, [click] 0x82 and [temp-click] 0x02,
    [manual...] 0x87 or 0x88 and [temp-manual...] 0x07 or 0x08, [auto...]
    0x85 and [temp-auto...] 0x05, for every argument text that decodes;
    and in whatever way [configure] carries out a token whose command,
    after an optional [temp-], is one of these four, the opcode byte is
    [perm + base] with bit 0x80 set exactly when the token has no
    [temp-]. The tokens [soft-free...] and [soft-click...] send the
    opcodes 3 and 4 as they are, and with a [temp-] prefix they are not
    commands at all. *)
Theorem persistence_bit :
  (forall w,
      configure_arg "free" w
      = (Done tt, after w [Write [0x10; first_byte w; 0x80; 0x56; 0x81; 0; 0]])
      /\ configure_arg "temp-free" w
         = (Done tt, after w [Write [0x10; first_byte w; 0x80; 0x56; 0x01; 0; 0]])
      /\ configure_arg "click" w
         = (Done tt, after w [Write [0x10; first_byte w; 0x80; 0x56; 0x82; 0; 0]])
      /\ configure_arg "temp-click" w
         = (Done tt, after w [Write [0x10; first_byte w; 0x80; 0x56; 0x02; 0; 0]]))
  /\ (forall s up down w,
         twoargs s 0 0 15 = Done (up, down) ->
         configure_arg ("manual" ++ s) w
         = (Done tt,
            after w [Write [0x10; first_byte w; 0x80; 0x56;
                            if up =? down then 0x88 else 0x87;
                            if up =? down then up else up * 16 + down;
                            0]])
         /\ configure_arg ("temp-manual" ++ s) w
            = (Done tt,
               after w [Write [0x10; first_byte w; 0x80; 0x56;
                               if up =? down then 0x08 else 0x07;
                               if up =? down then up else up * 16 + down;
                               0]]))
  /\ (forall s arg1 arg2 w,
         twoargs s 0 0 50 = Done (arg1, arg2) ->
         configure_arg ("auto" ++ s) w
         = (Done tt,
            after w [Write [0x10; first_byte w; 0x80; 0x56; 0x85; arg1; arg2]])
         /\ configure_arg ("temp-auto" ++ s) w
            = (Done tt,
               after w [Write [0x10; first_byte w; 0x80; 0x56; 0x05; arg1; arg2]]))
  /\ (forall s arg1 arg2 w,
         twoargs s 0 0 255 = Done (arg1, arg2) ->
         configure_arg ("soft-free" ++ s) w
         = (Done tt,
            after w [Write [0x10; first_byte w; 0x80; 0x56; 3; arg1; arg2]])
         /\ configure_arg ("soft-click" ++ s) w
            = (Done tt,
               after w [Write [0x10; first_byte w; 0x80; 0x56; 4; arg1; arg2]]))
  /\ (Forall (fun op => Z.testbit op 7 = true) [0x81; 0x82; 0x87; 0x88; 0x85]
      /\ Forall (fun op => Z.testbit op 7 = false)
                [0x01; 0x02; 0x07; 0x08; 0x05; 3; 4])
  /\ ((forall argv_i w w',
      configure_arg argv_i w = (Done tt, w') ->
      let cmd := command_of argv_i in
      let perm := perm_of argv_i in
      streq cmd "free" || streq cmd "click"
      || strneq cmd "manual" 6 || strneq cmd "auto" 4 = true ->
      exists base b2 b3,
        w' = after w [Write [0x10; first_byte w; 0x80; 0x56;
                             perm + base; b2; b3]]
        /\ Z.testbit (perm + base) 7 = negb (has_temp argv_i)
        /\ Z.land (perm + base) 0x7f = base
        /\ (streq cmd "free" = true /\ base = 1
            \/ streq cmd "click" = true /\ base = 2
            \/ strneq cmd "manual" 6 = true /\ (base = 7 \/ base = 8)
            \/ strneq cmd "auto" 4 = true /\ base = 5))
  /\ (forall argv_i w w',
         configure_arg argv_i w = (Done tt, w') ->
         strneq argv_i "soft-free" 9 = true ->
         exists b2 b3,
           w' = after w [Write [0x10; first_byte w; 0x80; 0x56; 3; b2; b3]])
  /\ (forall argv_i w w',
         configure_arg argv_i w = (Done tt, w') ->
         strneq argv_i "soft-click" 10 = true ->
         exists b2 b3,
           w' = after w [Write [0x10; first_byte w; 0x80; 0x56; 4; b2; b3]])
  /\ (forall s w,
         configure_arg ("temp-soft-free" ++ s) w
         = (Fatal (UnknownOption ("temp-soft-free" ++ s)), w)
         /\ configure_arg ("temp-soft-click" ++ s) w
            = (Fatal (UnknownOption ("temp-soft-click" ++ s)), w))).
Proof.
  split; [|split; [|split; [|split; [|split]]]].
  - intros w. repeat split; reflexivity.
  - intros s up down w H.
    assert (Hr : 0 <= up <= 15 /\ 0 <= down <= 15).
    { apply (twoargs_values _ _ _ _ _ _ H);
        [lia | lia | change (u8 0) with 0; lia]. }
    rewrite configure_arg_manual, configure_arg_temp_manual.
    unfold IO.bind, IO.lift. rewrite H, !manual_cmd_run.
    assert (Hb : u8 (if up =? down then up else up * 16 + down)
                 = if up =? down then up else up * 16 + down).
    { destruct (up =? down); apply u8_small; lia. }
    rewrite Hb. destruct (up =? down); split; reflexivity.
  - intros s arg1 arg2 w H.
    pose proof (twoargs_bytes _ _ _ _ _ _ H) as [B1 B2].
    rewrite configure_arg_auto, configure_arg_temp_auto.
    unfold IO.bind, IO.lift. rewrite H, !mx_cmd_run.
    rewrite (u8_small arg1), (u8_small arg2) by assumption.
    split; reflexivity.
  - intros s arg1 arg2 w H.
    pose proof (twoargs_bytes _ _ _ _ _ _ H) as [B1 B2].
    rewrite configure_arg_soft_free, configure_arg_soft_click.
    unfold IO.bind, IO.lift. rewrite H, !mx_cmd_run.
    rewrite (u8_small arg1), (u8_small arg2) by assumption.
    split; reflexivity.
  - split; repeat constructor.
  - exact persistence_bit_general.
Qed.

Lemma persistence_bit_witness :
  (twoargs "=4,5" 0 0 15 = Done (4, 5)
   /\ configure_arg "manual=4,5" (start 1 [])
      = (Done tt, after (start 1 []) [Write [0x10; 1; 0x80; 0x56; 0x87; 0x45; 0]])
   /\ configure_arg "temp-manual=4,5" (start 1 [])
      = (Done tt, after (start 1 []) [Write [0x10; 1; 0x80; 0x56; 0x07; 0x45; 0]]))
  /\ (twoargs "=10,20" 0 0 50 = Done (10, 20)
      /\ configure_arg "auto=10,20" (start 1 [])
         = (Done tt, after (start 1 []) [Write [0x10; 1; 0x80; 0x56; 0x85; 10; 20]])
      /\ configure_arg "temp-auto=10,20" (start 1 [])
         = (Done tt, after (start 1 []) [Write [0x10; 1; 0x80; 0x56; 0x05; 10; 20]]))
  /\ (twoargs "=3,7" 0 0 255 = Done (3, 7)
      /\ configure_arg "soft-free=3,7" (start 1 [])
         = (Done tt, after (start 1 []) [Write [0x10; 1; 0x80; 0x56; 3; 3; 7]])
      /\ configure_arg "soft-click=3,7" (start 1 [])
         = (Done tt, after (start 1 []) [Write [0x10; 1; 0x80; 0x56; 4; 3; 7]]))
  /\ (configure_arg "free" (start 1 [])
      = (Done tt, after (start 1 []) [Write [0x10; 1; 0x80; 0x56; 0x81; 0; 0]])
      /\ exists base b2 b3,
          after (start 1 []) [Write [0x10; 1; 0x80; 0x56; 0x81; 0; 0]]
          = after (start 1 [])
              [Write [0x10; 1; 0x80; 0x56; perm_of "free" + base; b2; b3]]
          /\ Z.testbit (perm_of "free" + base) 7 = negb (has_temp "free")
          /\ Z.land (perm_of "free" + base) 0x7f = base
          /\ (streq (command_of "free") "free" = true /\ base = 1
              \/ streq (command_of "free") "click" = true /\ base = 2
              \/ strneq (command_of "free") "manual" 6 = true
                 /\ (base = 7 \/ base = 8)
              \/ strneq (command_of "free") "auto" 4 = true /\ base = 5))
  /\ (configure_arg "soft-free=3,7" (start 1 [])
      = (Done tt, after (start 1 []) [Write [0x10; 1; 0x80; 0x56; 3; 3; 7]])
      /\ exists b2 b3,
          after (start 1 []) [Write [0x10; 1; 0x80; 0x56; 3; 3; 7]]
          = after (start 1 []) [Write [0x10; 1; 0x80; 0x56; 3; b2; b3]])
  /\ (configure_arg "soft-click=3,7" (start 1 [])
      = (Done tt, after (start 1 []) [Write [0x10; 1; 0x80; 0x56; 4; 3; 7]])
      /\ exists b2 b3,
          after (start 1 []) [Write [0x10; 1; 0x80; 0x56; 4; 3; 7]]
          = after (start 1 []) [Write [0x10; 1; 0x80; 0x56; 4; b2; b3]]).
Proof.
  split; [|split; [|split; [|split; [|split]]]].
  - split; [reflexivity|].
    apply (proj1 (proj2 persistence_bit) "=4,5" 4 5 (start 1 []) eq_refl).
  - split; [reflexivity|].
    apply (proj1 (proj2 (proj2 persistence_bit))
             "=10,20" 10 20 (start 1 []) eq_refl).
  - split; [reflexivity|].
    apply (proj1 (proj2 (proj2 (proj2 persistence_bit)))
             "=3,7" 3 7 (start 1 []) eq_refl).
  - split; [reflexivity|].
    apply (proj1 (proj2 (proj2 (proj2 (proj2 (proj2 persistence_bit)))))
             "free" (start 1 [])); reflexivity.
  - split; [reflexivity|].
    apply (proj1 (proj2 (proj2 (proj2 (proj2 (proj2 (proj2 persistence_bit))))))
             "soft-free=3,7" (start 1 [])); reflexivity.
  - split; [reflexivity|].
    apply (proj1 (proj2 (proj2 (proj2 (proj2 (proj2 (proj2 (proj2
                   persistence_bit)))))))
             "soft-click=3,7" (start 1 [])); reflexivity.
Defined.

(** ** The [query] command *)

Lemma query_dump_run arg1 arg2 w :
  let buf := next_answer (arg2 + 1) w in
  query_dump arg1 arg2 w
  = (Done tt,
     mkWorld (first_byte w)
       (trace w
        ++ Read (arg2 + 1)
           :: Print ("report " ++ hex2 false arg1 ++ ":")
           :: map (fun j => Print (" " ++ hex2 false (byte_at buf j)))
                  (seq 0 (Z.to_nat arg2))
           ++ [Print nl])
       (tl (device w))).
Proof.
  intros buf. unfold query_dump.
  rewrite (bind_run _ _ w buf
             (mkWorld (first_byte w) (trace w ++ [Read (arg2 + 1)])
                      (tl (device w)))) by reflexivity.
  rewrite (bind_run _ _ _ _ _ (printf_run _ _)).
  rewrite (bind_run _ _ _ _ _
             (for_each_print
                (fun j => (" " ++ hex2 false (byte_at buf j))%string) _ _)).
  rewrite printf_run. unfold after; simpl trace; simpl device; simpl first_byte.
  repeat rewrite <- app_assoc. reflexivity.
Qed.

Lemma device_io_query_dump arg1 arg2 w :
  device_io (snd (query_dump arg1 arg2 w)) = device_io w ++ [Read (arg2 + 1)].
Proof.
  rewrite query_dump_run. unfold device_io. cbn [snd trace].
  rewrite filter_app. f_equal. cbn [filter]. f_equal.
  rewrite filter_app. cbn [filter].
  generalize (seq 0 (Z.to_nat arg2)).
  induction l; simpl; auto.
Qed.

(** C9: the bytes that [twoargs] stores are never -1, so the [query]
    command never replaces them by report id 0x10 and length 6: it reads
    and dumps with the two stored bytes, and for the bare token [query]
    these are 255 and 255, a [read] of 256 bytes. *)
Theorem query_default_unreachable :
  (forall s arg1 arg2,
      twoargs s (-1) 0 255 = Done (arg1, arg2) ->
      (arg1 =? -1) = false
      /\ query_cmd arg1 arg2 = query_dump arg1 arg2
      /\ forall w, configure_arg ("query" ++ s) w = query_dump arg1 arg2 w)
  /\ twoargs "" (-1) 0 255 = Done (255, 255)
  /\ (forall w,
         configure_arg "query" w = query_dump 255 255 w
         /\ device_io (snd (configure_arg "query" w))
            = device_io w ++ [Read 256]
         /\ device_io (snd (configure_arg "query" w))
            <> device_io w ++ [Read 7]).
Proof.
  assert (Hgen : forall s arg1 arg2,
             twoargs s (-1) 0 255 = Done (arg1, arg2) ->
             (arg1 =? -1) = false
             /\ query_cmd arg1 arg2 = query_dump arg1 arg2
             /\ forall w, configure_arg ("query" ++ s) w = query_dump arg1 arg2 w).
  { intros s arg1 arg2 H.
    assert (Hne : (arg1 =? -1) = false).
    { apply twoargs_bytes in H. apply Z.eqb_neq. lia. }
    assert (Hcmd : query_cmd arg1 arg2 = query_dump arg1 arg2).
    { unfold query_cmd. now rewrite Hne. }
    repeat split; auto.
    intros w. rewrite configure_arg_query.
    unfold IO.bind, IO.lift. now rewrite H, Hcmd. }
  split; [exact Hgen|]. split; [reflexivity|].
  intros w.
  assert (Hq : configure_arg "query" w = query_dump 255 255 w).
  { apply (Hgen "" 255 255). reflexivity. }
  split; [exact Hq|].
  rewrite Hq, device_io_query_dump. split; [reflexivity|].
  intros H. apply app_inv_head in H. discriminate.
Qed.

Lemma query_default_unreachable_witness :
  twoargs "=0x10,6" (-1) 0 255 = Done (16, 6)
  /\ (16 =? -1) = false
  /\ query_cmd 16 6 = query_dump 16 6.
Proof.
  split; [reflexivity|].
  destruct (proj1 query_default_unreachable "=0x10,6" 16 6 eq_refl)
    as (H1 & H2 & _).
  split; [exact H1|exact H2].
Defined.

(** ** The [reconnect] command *)

(** C10: the [reconnect] command decodes the text after its name with
    [twoargs] and the bounds 0..255 and does not use the two values: when
    the text decodes, the empty text included, it writes the one report
    ff 80 b2 01 00 00 under report id 0x10 and prints the instructions;
    when it does not, as for [reconnect=300], the invocation ends there
    with the decoder's error and nothing written. *)
Theorem reconnect_ignores_arguments :
  (forall s w,
      match twoargs s 0 0 255 with
      | Done _ =>
          configure_arg ("reconnect" ++ s) w
          = (Done tt,
             after w (Write [0x10; 0xff; 0x80; 0xb2; 0x01; 0x00; 0x00]
                      :: map Print reconnect_text))
      | Fatal e =>
          is_decode_error e = true
          /\ configure_arg ("reconnect" ++ s) w = (Fatal e, w)
          /\ forall argv0 rest,
              configure (argv0 :: ("reconnect" ++ s)%string :: rest) w
              = (Fatal e, w)
      end)
  /\ twoargs "" 0 0 255 = Done (0, 0)
  /\ twoargs "=1,2" 0 0 255 = Done (1, 2)
  /\ twoargs "=300" 0 0 255 = Fatal (OutOfRange "300" 0 255)
  /\ twoargs "=1;2" 0 0 255 = Fatal (BadArgument ";2" ",")
  /\ configure ["revoco"; "reconnect=300"; "free"] (start 1 [])
     = (Fatal (OutOfRange "300" 0 255), start 1 []).
Proof.
  split; [|repeat split; reflexivity].
  intros s w. destruct (twoargs s 0 0 255) as [[a1 a2]|e] eqn:E.
  - rewrite configure_arg_reconnect. unfold IO.bind at 1, IO.lift.
    rewrite E. unfold IO.bind, send_report, IO.emit. simpl firstn.
    rewrite for_each_printf. unfold after; simpl.
    now rewrite <- app_assoc.
  - assert (Hrun : configure_arg ("reconnect" ++ s) w = (Fatal e, w)).
    { rewrite configure_arg_reconnect. unfold IO.bind at 1, IO.lift.
      now rewrite E. }
    split; [eapply twoargs_fatal; eauto|]. split; [exact Hrun|].
    intros argv0 rest. unfold configure. simpl tl. simpl configure_loop.
    now rewrite (bind_fatal _ _ _ _ _ Hrun).
Qed.

(** ** An invocation that fails *)

Lemma configure_loop_fatal args :
  forall w e w',
    configure_loop args w = (Fatal e, w') ->
    exists pre tok post,
      args = pre ++ tok :: post
      /\ configure_loop pre w = (Done tt, w')
      /\ configure_arg tok w' = (Fatal e, w').
Proof.
  induction args as [|a args IH]; intros w e w' H; simpl in H.
  - discriminate.
  - destruct (configure_arg a w) as [[[]|e0] w1] eqn:Ea.
    + rewrite (bind_run _ _ _ _ _ Ea) in H.
      destruct (IH _ _ _ H) as (pre & tok & post & -> & Hpre & Htok).
      exists (a :: pre), tok, post. repeat split; auto.
      simpl. now rewrite (bind_run _ _ _ _ _ Ea).
    + rewrite (bind_fatal _ _ _ _ _ Ea) in H. injection H as -> ->.
      pose proof (configure_arg_clean a _ _ _ Ea) as ->.
      exists [], a, args. auto.
Qed.

Lemma configure_loop_app pre rest w w1 :
  configure_loop pre w = (Done tt, w1) ->
  configure_loop (pre ++ rest) w = configure_loop rest w1.
Proof.
  revert w; induction pre as [|a pre IH]; intros w H; simpl in *.
  - now injection H as ->.
  - destruct (configure_arg a w) as [[[]|e0] w2] eqn:Ea.
    + rewrite (bind_run _ _ _ _ _ Ea) in H.
      rewrite (bind_run _ _ _ _ _ Ea). now apply IH.
    + rewrite (bind_fatal _ _ _ _ _ Ea) in H. discriminate.
Qed.

(** C2, as the code has it: [configure] decodes and carries out the
    tokens one after the other. When it ends in [fatal], the world is the
    one left by the commands before the failing token, which have all
    been carried out; nothing has been written or read for the failing
    token and for those after it. When the failing token is the first,
    nothing at all has been written or read. *)
Theorem fatal_stops_at_failing_token :
  (forall argv w e w',
      configure argv w = (Fatal e, w') ->
      exists pre tok post,
        tl argv = pre ++ tok :: post
        /\ configure_loop pre w = (Done tt, w')
        /\ configure_arg tok w' = (Fatal e, w'))
  /\ (forall argv0 pre tok post w w1 e w2,
         configure_loop pre w = (Done tt, w1) ->
         configure_arg tok w1 = (Fatal e, w2) ->
         configure (argv0 :: pre ++ tok :: post) w = (Fatal e, w1))
  /\ (forall argv0 tok post w e w',
         configure_arg tok w = (Fatal e, w') ->
         configure (argv0 :: tok :: post) w = (Fatal e, w)).
Proof.
  assert (Hmid : forall argv0 pre tok post w w1 e w2,
             configure_loop pre w = (Done tt, w1) ->
             configure_arg tok w1 = (Fatal e, w2) ->
             configure (argv0 :: pre ++ tok :: post) w = (Fatal e, w1)).
  { intros argv0 pre tok post w w1 e w2 Hpre Htok.
    unfold configure; simpl tl.
    rewrite (configure_loop_app _ _ _ _ Hpre). simpl.
    pose proof (configure_arg_clean tok _ _ _ Htok) as ->.
    now rewrite (bind_fatal _ _ _ _ _ Htok). }
  split; [|split; [exact Hmid|]].
  - intros argv w e w' H. now apply configure_loop_fatal.
  - intros argv0 tok post w e w' Htok.
    apply (Hmid argv0 [] tok post w w e w'); [reflexivity|assumption].
Qed.

Lemma fatal_stops_at_failing_token_witness :
  configure ["revoco"; "free"; "manual=99"; "click"] (start 1 [])
  = (Fatal (OutOfRange "99" 0 15),
     after (start 1 []) [Write [0x10; 1; 0x80; 0x56; 0x81; 0; 0]])
  /\ exists pre tok post,
      tl ["revoco"; "free"; "manual=99"; "click"] = pre ++ tok :: post
      /\ configure_loop pre (start 1 [])
         = (Done tt,
            after (start 1 []) [Write [0x10; 1; 0x80; 0x56; 0x81; 0; 0]])
      /\ configure_arg tok
           (after (start 1 []) [Write [0x10; 1; 0x80; 0x56; 0x81; 0; 0]])
         = (Fatal (OutOfRange "99" 0 15),
            after (start 1 []) [Write [0x10; 1; 0x80; 0x56; 0x81; 0; 0]]).
Proof.
  split; [reflexivity|].
  apply (proj1 fatal_stops_at_failing_token
           ["revoco"; "free"; "manual=99"; "click"] (start 1 [])).
  reflexivity.
Defined.

(** C2 as the specification states it fails: in the invocation
    [revoco free manual=99] the second token is out of range, and the
    report of [free] has been written before the decoder sees it. *)
Lemma earlier_reports_are_issued :
  ~ (forall argv fb answers e w',
        configure argv (start fb answers) = (Fatal e, w') ->
        is_decode_error e = true ->
        device_io w' = []).
Proof.
  intros H.
  specialize (H ["revoco"; "free"; "manual=99"] 1 []
                (OutOfRange "99" 0 15)
                (after (start 1 []) [Write [0x10; 1; 0x80; 0x56; 0x81; 0; 0]])
                eq_refl eq_refl).
  discriminate H.
Qed.

(** ** The [raw] command *)

Lemma nargs_loop_length n :
  forall p del i def min max buf i' p',
    nargs_loop n p del i def min max = Done (buf, i', p') ->
    List.length buf = n.
Proof.
  induction n as [|n IH]; intros p del i def min max buf i' p'; simpl.
  - now intros [= <- _ _].
  - unfold Decode.bind.
    destruct (onearg p del def min max) as [[arg q]|e]; [|discriminate].
    destruct (nargs_loop n q "," _ def min max) as [[[buf0 i0] q0]|e] eqn:E;
      [|discriminate].
    intros [= <- _ _]. simpl. f_equal. eapply IH; eauto.
Qed.

(** [nargs] fills all the [n] slots of [buf]. *)
Lemma nargs_length str n def min max i buf :
  nargs str n def min max = Done (i, buf) -> List.length buf = n.
Proof.
  unfold nargs, Decode.bind.
  destruct (nargs_loop n str "=" 0 def min max) as [[[buf0 i0] p]|e] eqn:E;
    [|discriminate].
  destruct (is_nil p); [|discriminate].
  intros [= _ <-]. eapply nargs_loop_length; eauto.
Qed.

(** The [n] that [raw] passes to [send_report] is from -1 to 254, within
    the 255 bytes of [buf + 1]. *)
Lemma raw_count str i buf :
  nargs str 256 0 0 255 = Done (i, buf) ->
  -1 <= u8 i - 1 <= Z.of_nat (List.length (tl buf)).
Proof.
  intros H. apply nargs_length in H. pose proof (u8_range i).
  destruct buf; simpl in *; lia.
Qed.

(** [raw] sends its first value as the report id and the others as the
    payload; without any value the count is 0 and [send_report] is
    called with [n = -1], a [write] of no byte at all. *)
Lemma raw_examples :
  nargs "=16,1,2,3" 6 0 0 255 = Done (4, [16; 1; 2; 3; 0; 0])
  /\ configure_arg "raw=16,1,2,3" (start 1 [])
     = (Done tt, after (start 1 []) [Write [16; 1; 2; 3]])
  /\ configure_arg "raw" (start 1 [])
     = (Done tt, after (start 1 []) [Write []]).
Proof. repeat split; vm_compute; reflexivity. Qed.

(** ** From the token to the report *)

(** The buttons that the decoder hands to the [manual] command are within
    0..15, and the command is [manual_cmd] on them, with the persistence
    bit unless the token starts with [temp-]. *)
Lemma manual_token s up down w :
  twoargs s 0 0 15 = Done (up, down) ->
  (0 <= up <= 15 /\ 0 <= down <= 15)
  /\ configure_arg ("manual" ++ s) w = manual_cmd 0x80 up down w
  /\ configure_arg ("temp-manual" ++ s) w = manual_cmd 0 up down w.
Proof.
  intros H. split.
  - apply (twoargs_values _ _ _ _ _ _ H);
      [lia | lia | change (u8 0) with 0; lia].
  - rewrite configure_arg_manual, configure_arg_temp_manual.
    unfold IO.bind, IO.lift. rewrite H. split; reflexivity.
Qed.

Lemma manual_token_examples :
  configure ["revoco"; "manual=4,5"; "temp-manual=0x3"; "manual"] (start 1 [])
  = (Done tt,
     after (start 1 [])
       [Write [0x10; 1; 0x80; 0x56; 0x87; 0x45; 0];
        Write [0x10; 1; 0x80; 0x56; 0x08; 0x03; 0];
        Write [0x10; 1; 0x80; 0x56; 0x88; 0x00; 0]]).
Proof. reflexivity. Qed.

(** * Further properties of the code *)

(** ** [nargs] *)

Lemma onearg_nil prefix def min max :
  onearg "" prefix def min max = Done (u8 def, "").
Proof. reflexivity. Qed.






(** ** Values within the bounds *)

Lemma nargs_loop_values n :
  forall p del i def min max buf i' p',
    nargs_loop n p del i def min max = Done (buf, i', p') ->
    0 <= min -> max <= 255 -> min <= u8 def <= max ->
    Forall (fun v => min <= v <= max) buf.
Proof.
  induction n as [|n IH]; intros p del i def min max buf i' p' H Hmin Hmax Hdef.
  - simpl in H. injection H as <- <- <-. constructor.
  - cbn [nargs_loop] in H. unfold Decode.bind in H.
    destruct (onearg p del def min max) as [[arg q]|e] eqn:E1; [|discriminate].
    destruct (nargs_loop n q "," _ def min max)
      as [[[buf0 i0] q0]|e] eqn:E2; [|discriminate].
    injection H as <- <- <-. constructor.
    + apply onearg_value in E1; [|lia..]. lia.
    + eapply IH; eauto.
Qed.

(** X2: a value that the decoder returns is never outside the bounds it
    was given: when the bounds lie within a byte and the default byte is
    within the bounds, both values of [twoargs] and all the values of
    [nargs] are in [min, max]. An out-of-range number is never stored
    silently; it is the "out of range" failure. *)
Theorem decoded_values_within_bounds def min max :
  0 <= min -> max <= 255 -> min <= u8 def <= max ->
  (forall str v1 v2,
      twoargs str def min max = Done (v1, v2) ->
      min <= v1 <= max /\ min <= v2 <= max)
  /\ (forall str n i buf,
         nargs str n def min max = Done (i, buf) ->
         Forall (fun v => min <= v <= max) buf).
Proof.
  intros Hmin Hmax Hdef. split.
  - intros str v1 v2 H. eapply twoargs_values; eauto.
  - intros str n i buf H. unfold nargs, Decode.bind in H.
    destruct (nargs_loop n str "=" 0 def min max) as [[[buf0 i0] p]|e] eqn:E;
      [|discriminate].
    destruct (is_nil p); [|discriminate]. injection H as <- <-.
    eapply nargs_loop_values; eauto.
Qed.

Lemma decoded_values_within_bounds_witness :
  (0 <= 0 /\ 50 <= 255 /\ 0 <= u8 0 <= 50)
  /\ twoargs "=10,0x20" 0 0 50 = Done (10, 32)
  /\ (0 <= 10 <= 50 /\ 0 <= 32 <= 50).
Proof.
  split; [vm_compute; intuition discriminate|].
  split; [reflexivity|].
  apply (proj1 (decoded_values_within_bounds 0 0 50
                  ltac:(lia) ltac:(lia) ltac:(vm_compute; intuition discriminate))
           "=10,0x20" 10 32).
  reflexivity.
Defined.

(** ** The [raw] command *)





(** ** The commands with two values *)

(** X4: the [auto] command sends opcode 0x85 (0x05 after [temp-]) with
    the two decoded speeds as they are, each within 0..50; [soft-free]
    and [soft-click] send opcodes 3 and 4 with their two decoded bytes as
    they are. No value is changed between the decoder and the report. *)
Theorem two_value_commands s arg1 arg2 w :
  (twoargs s 0 0 50 = Done (arg1, arg2) ->
   (0 <= arg1 <= 50 /\ 0 <= arg2 <= 50)
   /\ configure_arg ("auto" ++ s) w
      = (Done tt,
         after w [Write [0x10; first_byte w; 0x80; 0x56; 0x85; arg1; arg2]])
   /\ configure_arg ("temp-auto" ++ s) w
      = (Done tt,
         after w [Write [0x10; first_byte w; 0x80; 0x56; 0x05; arg1; arg2]]))
  /\ (twoargs s 0 0 255 = Done (arg1, arg2) ->
      configure_arg ("soft-free" ++ s) w
      = (Done tt,
         after w [Write [0x10; first_byte w; 0x80; 0x56; 3; arg1; arg2]])
      /\ configure_arg ("soft-click" ++ s) w
         = (Done tt,
            after w [Write [0x10; first_byte w; 0x80; 0x56; 4; arg1; arg2]])).
Proof.
  split; intros H.
  - pose proof (twoargs_bytes _ _ _ _ _ _ H) as [B1 B2].
    split.
    + apply (twoargs_values _ _ _ _ _ _ H);
        [lia | lia | change (u8 0) with 0; lia].
    + rewrite configure_arg_auto, configure_arg_temp_auto.
      unfold IO.bind, IO.lift. rewrite H, !mx_cmd_run.
      rewrite (u8_small arg1), (u8_small arg2) by assumption.
      split; reflexivity.
  - pose proof (twoargs_bytes _ _ _ _ _ _ H) as [B1 B2].
    rewrite configure_arg_soft_free, configure_arg_soft_click.
    unfold IO.bind, IO.lift. rewrite H, !mx_cmd_run.
    rewrite (u8_small arg1), (u8_small arg2) by assumption.
    split; reflexivity.
Qed.

Lemma two_value_commands_witness :
  (twoargs "=10,20" 0 0 50 = Done (10, 20)
   /\ configure_arg "auto=10,20" (start 1 [])
      = (Done tt,
         after (start 1 []) [Write [0x10; 1; 0x80; 0x56; 0x85; 10; 20]]))
  /\ (twoargs "=3,200" 0 0 255 = Done (3, 200)
      /\ configure_arg "soft-click=3,200" (start 1 [])
         = (Done tt,
            after (start 1 []) [Write [0x10; 1; 0x80; 0x56; 4; 3; 200]])).
Proof.
  split.
  - split; [reflexivity|].
    apply (proj1 (two_value_commands "=10,20" 10 20 (start 1 [])) eq_refl).
  - split; [reflexivity|].
    apply (proj2 (two_value_commands "=3,200" 3 200 (start 1 [])) eq_refl).
Defined.

(** ** The [mode] and [battery] commands *)

(** [mx_query], with all that it prints. *)
Lemma mx_query_trace b1 w :
  let res := shift_answer (next_answer 7 w) in
  mx_query b1 w
  = (Done (negb (bad_answer res), res),
     mkWorld (first_byte w)
       (trace w
        ++ Write [0x10; first_byte w; 0x81; u8 b1; 0; 0; 0]
           :: Read 7
           :: (if bad_answer res then bad_answer_report res else []))
       (tl (device w))).
Proof.
  intros res. unfold mx_query.
  rewrite (bind_run _ _ w (first_byte w) w) by reflexivity.
  rewrite (bind_run _ _ w tt
             (after w [Write [0x10; first_byte w; 0x81; u8 b1; 0; 0; 0]]))
    by reflexivity.
  rewrite (bind_run _ _ _ (next_answer 7 w)
             (mkWorld (first_byte w)
                (trace w ++ [Write [0x10; first_byte w; 0x81; u8 b1; 0; 0; 0];
                             Read 7])
                (tl (device w)))).
  2: { unfold query_report, IO.read, after; simpl.
       now rewrite <- app_assoc. }
  fold res. destruct (bad_answer res).
  - rewrite (bind_run _ _ _ _ _ (printf_run _ _)).
    rewrite (bind_run _ _ _ _ _
               (for_each_print
                  (fun i => (hex2 true (byte_at res i) ++ " ")%string) _ _)).
    rewrite (bind_run _ _ _ _ _ (printf_run _ _)).
    unfold IO.ret, after, bad_answer_report;
      simpl trace; simpl device; simpl first_byte.
    repeat rewrite <- app_assoc. reflexivity.
  - reflexivity.
Qed.

Lemma land_1_odd v : negb (Z.land v 1 =? 0) = Z.odd v.
Proof.
  change 1 with (Z.ones 1). rewrite Z.land_ones by lia.
  change (2 ^ 1) with 2. rewrite Zmod_odd. now destruct (Z.odd v).
Qed.

Lemma mode_cmd_run w :
  let res := shift_answer (next_answer 7 w) in
  mode_cmd w
  = (Done tt,
     mkWorld (first_byte w)
       (trace w
        ++ Write [0x10; first_byte w; 0x81; 0x08; 0; 0; 0]
           :: Read 7
           :: (if bad_answer res then bad_answer_report res
               else [Print (if Z.odd (byte_at res 5)
                            then "click-by-click" ++ nl
                            else "free spinning" ++ nl)%string]))
       (tl (device w))).
Proof.
  intros res. unfold mode_cmd.
  rewrite (bind_run _ _ _ _ _ (mx_query_trace 0x08 w)). fold res.
  destruct (bad_answer res); cbn [negb].
  - reflexivity.
  - rewrite land_1_odd. destruct (Z.odd (byte_at res 5));
      rewrite printf_run; unfold after; cbn [trace first_byte device];
      rewrite <- app_assoc; reflexivity.
Qed.

Lemma battery_cmd_run w :
  let res := shift_answer (next_answer 7 w) in
  battery_cmd w
  = (Done tt,
     mkWorld (first_byte w)
       (trace w
        ++ Write [0x10; first_byte w; 0x81; 0x0d; 0; 0; 0]
           :: Read 7
           :: (if bad_answer res then bad_answer_report res
               else [Print ("battery level " ++ dec (byte_at res 3) ++ "%, "
                            ++ battery_state (byte_at res 5) ++ nl)%string]))
       (tl (device w))).
Proof.
  intros res. unfold battery_cmd.
  rewrite (bind_run _ _ _ _ _ (mx_query_trace 0x0d w)). fold res.
  destruct (bad_answer res); cbn [negb].
  - reflexivity.
  - rewrite printf_run; unfold after; cbn [trace first_byte device].
    rewrite <- app_assoc; reflexivity.
Qed.





(** ** The [query] command, in general *)

Lemma query_cmd_bytes arg1 arg2 :
  0 <= arg1 < 256 -> query_cmd arg1 arg2 = query_dump arg1 arg2.
Proof.
  intros B. unfold query_cmd.
  replace (arg1 =? -1) with false by (symmetry; apply Z.eqb_neq; lia).
  reflexivity.
Qed.



(** ** Command names *)

(** X8: [temp-] goes with [free], [click], [manual...] and [auto...]
    only. Every other token that starts with [temp-], such as
    [temp-mode] or [temp-reconnect], is an unknown option: [configure]
    calls [fatal] with the whole token and does nothing else. *)
Theorem temp_prefix_only_for_modes cmd w :
  streq cmd "free" = false ->
  streq cmd "click" = false ->
  strneq cmd "manual" 6 = false ->
  strneq cmd "auto" 4 = false ->
  configure_arg ("temp-" ++ cmd) w
  = (Fatal (UnknownOption ("temp-" ++ cmd)), w).
Proof.
  intros H1 H2 H3 H4. rewrite configure_arg_unfold.
  change (command_of ("temp-" ++ cmd)) with cmd.
  cbv zeta. rewrite H1, H2, H3, H4. reflexivity.
Qed.

Lemma temp_prefix_only_for_modes_witness :
  streq "mode" "free" = false
  /\ streq "mode" "click" = false
  /\ strneq "mode" "manual" 6 = false
  /\ strneq "mode" "auto" 4 = false
  /\ configure_arg "temp-mode" (start 1 [])
     = (Fatal (UnknownOption "temp-mode"), start 1 []).
Proof.
  repeat (split; [reflexivity|]).
  apply (temp_prefix_only_for_modes "mode" (start 1 [])); reflexivity.
Defined.

(** X9: [free] and [click] are matched as whole words, the other names
    as prefixes. A token that continues after [free] or [click] (with or
    without [temp-]) is an unknown option and nothing is sent, while
    whatever follows [mode] and [battery] is ignored. *)
Theorem whole_word_and_prefix_names c s w :
  configure_arg ("free" ++ String c s) w
  = (Fatal (UnknownOption ("free" ++ String c s)), w)
  /\ configure_arg ("click" ++ String c s) w
     = (Fatal (UnknownOption ("click" ++ String c s)), w)
  /\ configure_arg ("temp-free" ++ String c s) w
     = (Fatal (UnknownOption ("temp-free" ++ String c s)), w)
  /\ configure_arg ("temp-click" ++ String c s) w
     = (Fatal (UnknownOption ("temp-click" ++ String c s)), w)
  /\ configure_arg ("mode" ++ String c s) w = configure_arg "mode" w
  /\ configure_arg ("battery" ++ String c s) w = configure_arg "battery" w.
Proof. repeat split; reflexivity. Qed.

(** ** The device traffic of one command *)

Lemma device_io_after w es :
  device_io (after w es)
  = device_io w
    ++ filter (fun e => match e with Write _ | Read _ => true | _ => false end) es.
Proof. unfold device_io, after; simpl; apply filter_app. Qed.

Lemma device_io_prints (l : list string) :
  filter (fun e => match e with Write _ | Read _ => true | _ => false end)
         (map Print l) = [].
Proof. induction l; simpl; auto. Qed.

Lemma device_io_bad_answer_report res :
  filter (fun e => match e with Write _ | Read _ => true | _ => false end)
         (bad_answer_report res) = [].
Proof. reflexivity. Qed.

Lemma reconnect_run w :
  (send_report 0x10 reconnect_cmd 6 ;; IO.for_each reconnect_text printf)%io w
  = (Done tt,
     after w (Write [0x10; 0xff; 0x80; 0xb2; 1; 0; 0] :: map Print reconnect_text)).
Proof.
  rewrite (bind_run _ _ w tt (after w [Write [0x10; 0xff; 0x80; 0xb2; 1; 0; 0]]))
    by reflexivity.
  rewrite for_each_printf. unfold after; cbn [trace first_byte device].
  now rewrite <- app_assoc.
Qed.

Lemma bind_lift {A B} (r : outcome A) (k : A -> M B) w :
  IO.bind (IO.lift r) k w
  = match r with Done a => k a w | Fatal e => (Fatal e, w) end.
Proof. unfold IO.bind, IO.lift. now destruct r. Qed.

(** The traffic that one command may cause, from the world [w]. *)
Lemma one_write w w' bytes :
  w' = after w [Write bytes] ->
  first_byte w' = first_byte w
  /\ (device_io w' = device_io w /\ device w' = device w
      \/ (exists b, device_io w' = device_io w ++ [Write b]
                    /\ device w' = device w)
      \/ (exists sub,
             device_io w'
             = device_io w
               ++ [Write [0x10; first_byte w; 0x81; sub; 0; 0; 0]; Read 7]
             /\ device w' = tl (device w))
      \/ (exists n, 0 <= n <= 255
                    /\ device_io w' = device_io w ++ [Read (n + 1)]
                    /\ device w' = tl (device w))).
Proof.
  intros ->. split; [reflexivity|]. right; left. exists bytes.
  rewrite device_io_after. auto.
Qed.

Lemma query_traffic w w' sub prints :
  filter (fun e => match e with Write _ | Read _ => true | _ => false end)
         prints = [] ->
  w' = mkWorld (first_byte w)
         (trace w ++ Write [0x10; first_byte w; 0x81; sub; 0; 0; 0]
                     :: Read 7 :: prints)
         (tl (device w)) ->
  first_byte w' = first_byte w
  /\ (device_io w' = device_io w /\ device w' = device w
      \/ (exists b, device_io w' = device_io w ++ [Write b]
                    /\ device w' = device w)
      \/ (exists sub,
             device_io w'
             = device_io w
               ++ [Write [0x10; first_byte w; 0x81; sub; 0; 0; 0]; Read 7]
             /\ device w' = tl (device w))
      \/ (exists n, 0 <= n <= 255
                    /\ device_io w' = device_io w ++ [Read (n + 1)]
                    /\ device w' = tl (device w))).
Proof.
  intros Hp ->. split; [reflexivity|]. right; right; left. exists sub.
  unfold device_io; cbn [trace device]. rewrite filter_app. cbn [filter].
  now rewrite Hp.
Qed.

Lemma configure_arg_traffic argv_i w r w' :
  configure_arg argv_i w = (r, w') ->
  first_byte w' = first_byte w
  /\ (device_io w' = device_io w /\ device w' = device w
      \/ (exists b, device_io w' = device_io w ++ [Write b]
                    /\ device w' = device w)
      \/ (exists sub,
             device_io w'
             = device_io w
               ++ [Write [0x10; first_byte w; 0x81; sub; 0; 0; 0]; Read 7]
             /\ device w' = tl (device w))
      \/ (exists n, 0 <= n <= 255
                    /\ device_io w' = device_io w ++ [Read (n + 1)]
                    /\ device w' = tl (device w)))
  /\ (forall e, r = Fatal e -> w' = w).
Proof.
  intros H.
  assert (Hclean : forall e, r = Fatal e -> w' = w).
  { intros e ->. eapply configure_arg_clean; eauto. }
  rewrite <- and_assoc. split; [|exact Hclean].
  destruct r as [[]|e].
  2: { rewrite (Hclean e eq_refl). auto. }
  clear Hclean. rewrite configure_arg_unfold in H. cbv zeta in H.
  repeat match type of H with
         | (if ?c then _ else _) _ = _ => destruct c
         end;
    try (rewrite bind_lift in H;
         match type of H with
         | context [twoargs ?a ?b ?c ?d] =>
             destruct (twoargs a b c d) as [[a1 a2]|e0] eqn:E; [|discriminate]
         | context [nargs ?a ?b ?c ?d ?f] =>
             destruct (nargs a b c d f) as [[a1 a2]|e0] eqn:E; [|discriminate]
         end).
  - rewrite mx_cmd_run in H. injection H as <-. eapply one_write; eauto.
  - rewrite mx_cmd_run in H. injection H as <-. eapply one_write; eauto.
  - rewrite manual_cmd_run in H. injection H as <-. eapply one_write; eauto.
  - rewrite mx_cmd_run in H. injection H as <-. eapply one_write; eauto.
  - rewrite mx_cmd_run in H. injection H as <-. eapply one_write; eauto.
  - rewrite mx_cmd_run in H. injection H as <-. eapply one_write; eauto.
  - rewrite reconnect_run in H. injection H as <-.
    split; [reflexivity|]. right; left. eexists.
    rewrite device_io_after. split; reflexivity.
  - rewrite mode_cmd_run in H. injection H as <-.
    eapply query_traffic; [|reflexivity].
    destruct (bad_answer _); reflexivity.
  - rewrite battery_cmd_run in H. injection H as <-.
    eapply query_traffic; [|reflexivity].
    destruct (bad_answer _); reflexivity.
  - unfold send_report, IO.emit in H. injection H as <-.
    eapply one_write; reflexivity.
  - pose proof (twoargs_bytes _ _ _ _ _ _ E) as [B1 B2].
    rewrite query_cmd_bytes in H by assumption.
    pose proof (device_io_query_dump a1 a2 w) as Hio.
    rewrite H in Hio. cbn [snd] in Hio.
    pose proof (query_dump_run a1 a2 w) as Hrun. cbv zeta in Hrun.
    rewrite H in Hrun. injection Hrun as Hw.
    split; [rewrite Hw; reflexivity|].
    right; right; right. exists a2. split; [lia|].
    split; [exact Hio|rewrite Hw; reflexivity].
  - unfold IO.emit in H. injection H as <-.
    split; [reflexivity|]. left. split; [|reflexivity].
    unfold device_io; cbn [trace]. rewrite filter_app. cbn [filter].
    apply app_nil_r.
  - discriminate.
Qed.

(** X10: one command of [configure], whatever the token and the answers
    of the device, leaves [first_byte] alone and does one of four things
    on the device: nothing (as [sleep], and as every token that ends in
    [fatal]); one write and no read; one write of a query 81 xx followed
    by one read of 7 bytes, which consumes one answer; or, for [query],
    one read of at most 256 bytes and no write. *)
Theorem command_device_traffic argv_i w r w' :
  configure_arg argv_i w = (r, w') ->
  first_byte w' = first_byte w
  /\ (device_io w' = device_io w /\ device w' = device w
      \/ (exists b, device_io w' = device_io w ++ [Write b]
                    /\ device w' = device w)
      \/ (exists sub,
             device_io w'
             = device_io w
               ++ [Write [0x10; first_byte w; 0x81; sub; 0; 0; 0]; Read 7]
             /\ device w' = tl (device w))
      \/ (exists n, 0 <= n <= 255
                    /\ device_io w' = device_io w ++ [Read (n + 1)]
                    /\ device w' = tl (device w)))
  /\ (forall e, r = Fatal e -> w' = w).
Proof. apply configure_arg_traffic. Qed.

Lemma command_device_traffic_witness :
  configure_arg "battery" (start 2 [[0x10; 0x02; 0x81; 0x0d; 0x50; 0x00; 0x30]])
  = (Done tt,
     mkWorld 2 [Write [0x10; 2; 0x81; 0x0d; 0; 0; 0]; Read 7;
                Print ("battery level 80%, running on battery" ++ nl)] [])
  /\ first_byte
       (mkWorld 2 [Write [0x10; 2; 0x81; 0x0d; 0; 0; 0]; Read 7;
                   Print ("battery level 80%, running on battery" ++ nl)] [])
     = first_byte (start 2 [[0x10; 0x02; 0x81; 0x0d; 0x50; 0x00; 0x30]]).
Proof.
  split; [reflexivity|].
  apply (command_device_traffic "battery"
           (start 2 [[0x10; 0x02; 0x81; 0x0d; 0x50; 0x00; 0x30]]) (Done tt)
           (mkWorld 2 [Write [0x10; 2; 0x81; 0x0d; 0; 0; 0]; Read 7;
                       Print ("battery level 80%, running on battery" ++ nl)]
                    [])).
  reflexivity.
Defined.

(** ** The device traffic of an invocation *)

Lemma skipn_tl {A} n (l : list A) : tl (skipn n l) = skipn (S n) l.
Proof.
  revert l; induction n as [|n IH]; intros [|a l]; simpl; auto.
Qed.

Lemma skipn_of_tl {A} n (l : list A) : skipn n (tl l) = skipn (S n) l.
Proof. destruct l; simpl; [now destruct n|reflexivity]. Qed.

Lemma configure_loop_traffic args :
  forall w r w',
    configure_loop args w = (r, w') ->
    first_byte w' = first_byte w
    /\ (exists k, (k <= List.length args)%nat /\ device w' = skipn k (device w))
    /\ (exists es, device_io w' = device_io w ++ es
                   /\ (List.length es <= 2 * List.length args)%nat).
Proof.
  induction args as [|a args IH]; intros w r w' H; simpl in H.
  - injection H as <- <-. split; [reflexivity|]. split.
    + exists 0%nat. auto.
    + exists []. rewrite app_nil_r. auto.
  - destruct (configure_arg a w) as [[[]|e] w1] eqn:Ea.
    + rewrite (bind_run _ _ _ _ _ Ea) in H.
      destruct (IH _ _ _ H) as (Hfb & (k & Hk & Hdev) & (es & Hio & Hlen)).
      destruct (configure_arg_traffic _ _ _ _ Ea) as (Hfb1 & Hcases & _).
      split; [congruence|].
      destruct Hcases as [[Hio1 Hd1]|[(b & Hio1 & Hd1)|[(sub & Hio1 & Hd1)
                         |(n & _ & Hio1 & Hd1)]]];
        rewrite Hio1 in Hio; rewrite Hd1 in Hdev.
      * split; [exists k; split; [simpl; lia|assumption]|].
        exists es. split; [assumption|simpl; lia].
      * split; [exists k; split; [simpl; lia|assumption]|].
        exists (Write b :: es). rewrite <- app_assoc in Hio.
        split; [assumption|simpl; lia].
      * split; [exists (S k); split; [simpl; lia|]|].
        { rewrite Hdev. apply skipn_of_tl. }
        eexists. rewrite <- app_assoc in Hio.
        split; [exact Hio|simpl; lia].
      * split; [exists (S k); split; [simpl; lia|]|].
        { rewrite Hdev. apply skipn_of_tl. }
        eexists. rewrite <- app_assoc in Hio.
        split; [exact Hio|simpl; lia].
    + rewrite (bind_fatal _ _ _ _ _ Ea) in H. injection H as <- <-.
      destruct (configure_arg_traffic _ _ _ _ Ea) as (_ & _ & Hw).
      rewrite (Hw e eq_refl). split; [reflexivity|]. split.
      * exists 0%nat. split; [lia|reflexivity].
      * exists []. rewrite app_nil_r. split; [reflexivity|simpl; lia].
Qed.

(** X11: an invocation of [configure] with [n] command tokens, however
    it ends, leaves [first_byte] alone, consumes at most [n] answers of
    the device, in order, and makes at most [2 n] [write] and [read]
    calls in all. *)
Theorem invocation_device_traffic argv w r w' :
  configure argv w = (r, w') ->
  first_byte w' = first_byte w
  /\ (exists k, (k <= List.length (tl argv))%nat
                /\ device w' = skipn k (device w))
  /\ (exists es, device_io w' = device_io w ++ es
                 /\ (List.length es <= 2 * List.length (tl argv))%nat).
Proof. unfold configure. apply configure_loop_traffic. Qed.

Lemma invocation_device_traffic_witness :
  configure ["revoco"; "mode"; "free"; "manual=99"]
            (start 1 [[0x10; 1; 0x81; 0x08; 0; 0; 0]; [1; 2; 3]])
  = (Fatal (OutOfRange "99" 0 15),
     mkWorld 1 [Write [0x10; 1; 0x81; 0x08; 0; 0; 0]; Read 7;
                Print ("free spinning" ++ nl);
                Write [0x10; 1; 0x80; 0x56; 0x81; 0; 0]]
             [[1; 2; 3]])
  /\ exists k, (k <= 3)%nat /\ [[1; 2; 3]]
               = skipn k [[0x10; 1; 0x81; 0x08; 0; 0; 0]; [1; 2; 3]].
Proof.
  split; [reflexivity|].
  apply (invocation_device_traffic
           ["revoco"; "mode"; "free"; "manual=99"]
           (start 1 [[0x10; 1; 0x81; 0x08; 0; 0; 0]; [1; 2; 3]])
           (Fatal (OutOfRange "99" 0 15))
           (mkWorld 1 [Write [0x10; 1; 0x81; 0x08; 0; 0; 0]; Read 7;
                       Print ("free spinning" ++ nl);
                       Write [0x10; 1; 0x80; 0x56; 0x81; 0; 0]]
                    [[1; 2; 3]])
           eq_refl).
Defined.

(** ** Opening the device *)

Lemma world_eta w : mkWorld (first_byte w) (trace w) (device w) = w.
Proof. now destruct w. Qed.

Lemma discriminant_values d :
  discriminant d = 0 \/ discriminant d = 1 \/ discriminant d = 2.
Proof.
  unfold discriminant. destruct (vendor d =? LOGITECH); auto.
  destruct (_ || _); auto. destruct (product d =? MX_5500); auto.
Qed.

(** One turn of the loop of [open_dev], while [first_byte] is 0. *)
Lemma open_dev_loop_step node nodes i w :
  first_byte w = 0 ->
  open_dev_loop (node :: nodes) i w
  = match node with
    | Some d =>
        if discriminant d =? 0 then open_dev_loop nodes (S i) w
        else (Done (Some i), mkWorld (discriminant d) (trace w) (device w))
    | None => open_dev_loop nodes (S i) w
    end.
Proof.
  intros Hw. destruct node as [d|]; [|reflexivity].
  cbn [open_dev_loop]. unfold discriminant.
  destruct (vendor d =? LOGITECH); [|reflexivity].
  unfold IO.bind at 1.
  destruct (_ || _); [reflexivity|].
  destruct (product d =? MX_5500); [reflexivity|].
  unfold IO.ret at 1, IO.bind, IO.get_first_byte. now rewrite Hw.
Qed.

Lemma open_dev_loop_spec nodes :
  forall i w,
    first_byte w = 0 ->
    exists r fb,
      open_dev_loop nodes i w = (Done r, mkWorld fb (trace w) (device w))
      /\ match r with
         | Some k =>
             exists j d,
               k = (i + j)%nat
               /\ nth_error nodes j = Some (Some d)
               /\ fb = discriminant d /\ fb <> 0
               /\ forall j' d', (j' < j)%nat ->
                                nth_error nodes j' = Some (Some d') ->
                                discriminant d' = 0
         | None =>
             fb = 0
             /\ forall j d, nth_error nodes j = Some (Some d) ->
                            discriminant d = 0
         end.
Proof.
  induction nodes as [|node nodes IH]; intros i w Hw.
  - exists None, 0. simpl. unfold IO.ret. rewrite <- Hw, world_eta.
    split; [reflexivity|]. split; [reflexivity|].
    intros [|j] d H; discriminate.
  - rewrite (open_dev_loop_step _ _ _ _ Hw).
    assert (Hnode : (forall d, node = Some d -> discriminant d = 0)
                    \/ exists d, node = Some d /\ discriminant d <> 0).
    { destruct node as [d|]; [|left; discriminate].
      destruct (Z.eq_dec (discriminant d) 0) as [H0|H0].
      - left. now intros d' [= <-].
      - right. eauto. }
    destruct Hnode as [Hzero|(d & -> & Hd)].
    + assert (Hgo : match node with
                    | Some d =>
                        if discriminant d =? 0 then open_dev_loop nodes (S i) w
                        else (Done (Some i),
                              mkWorld (discriminant d) (trace w) (device w))
                    | None => open_dev_loop nodes (S i) w
                    end = open_dev_loop nodes (S i) w).
      { destruct node as [d|]; [|reflexivity].
        now rewrite (Hzero d eq_refl). }
      rewrite Hgo.
      destruct (IH (S i) w Hw) as (r & fb & Hrun & Hr).
      exists r, fb. split; [exact Hrun|].
      destruct r as [k|].
      * destruct Hr as (j & d & -> & Hn & Hfb & Hne & Hless).
        exists (S j), d. split; [lia|]. split; [exact Hn|].
        split; [exact Hfb|]. split; [exact Hne|].
        intros [|j'] d' Hlt Hn'; simpl in Hn'.
        -- injection Hn' as Hn'. now apply Hzero.
        -- apply (Hless j' d'); [lia|assumption].
      * destruct Hr as (-> & Hall). split; [reflexivity|].
        intros [|j] d Hn; simpl in Hn.
        -- injection Hn as Hn. now apply Hzero.
        -- now apply (Hall j d).
    + apply Z.eqb_neq in Hd as Hd'. rewrite Hd'.
      exists (Some i), (discriminant d). split; [reflexivity|].
      exists 0%nat, d. split; [lia|]. split; [reflexivity|].
      split; [reflexivity|]. split; [exact Hd|].
      intros j' d' Hlt; lia.
Qed.

(** X13: [open_dev], started with [first_byte] 0, looks at the nodes 0
    to 15 in order and stops at the first one that is a supported
    product of the vendor: it returns that index and has set
    [first_byte] to its discriminant, 1 or 2. Nodes that do not open, of
    another vendor or of an unknown product are passed over; when none of
    the 16 is supported it returns -1 and [first_byte] is still 0. It
    writes and reads nothing. *)
Theorem open_dev_first_supported nodes w :
  first_byte w = 0 ->
  exists r fb,
    open_dev nodes w = (Done r, mkWorld fb (trace w) (device w))
    /\ match r with
       | Some i =>
           (i < 16)%nat
           /\ exists d,
               nth_error nodes i = Some (Some d)
               /\ fb = discriminant d /\ (fb = 1 \/ fb = 2)
               /\ forall j d', (j < i)%nat ->
                               nth_error nodes j = Some (Some d') ->
                               discriminant d' = 0
       | None =>
           fb = 0
           /\ forall j d, (j < 16)%nat ->
                          nth_error nodes j = Some (Some d) ->
                          discriminant d = 0
       end.
Proof.
  intros Hw. unfold open_dev.
  destruct (open_dev_loop_spec (firstn 16 nodes) 0 w Hw) as (r & fb & Hrun & Hr).
  exists r, fb. split; [exact Hrun|].
  destruct r as [k|].
  - destruct Hr as (j & d & -> & Hn & Hfb & Hne & Hless).
    rewrite nth_error_firstn in Hn.
    destruct (Nat.ltb_spec j 16) as [Hj|Hj]; [|discriminate].
    split; [exact Hj|]. exists d. split; [exact Hn|]. split; [exact Hfb|].
    split.
    + destruct (discriminant_values d) as [H0|H12]; [congruence|].
      rewrite Hfb; exact H12.
    + intros j' d' Hlt Hn'. apply (Hless j' d' Hlt).
      rewrite nth_error_firstn.
      destruct (Nat.ltb_spec j' 16); [assumption|lia].
  - destruct Hr as (-> & Hall). split; [reflexivity|].
    intros j d Hj Hn. apply (Hall j d).
    rewrite nth_error_firstn.
    destruct (Nat.ltb_spec j 16); [assumption|lia].
Qed.

Lemma open_dev_first_supported_witness :
  first_byte (start 0 []) = 0
  /\ open_dev [None; Some (mkDevinfo LOGITECH 0x1234);
               Some (mkDevinfo LOGITECH MX_REVOLUTION4);
               Some (mkDevinfo LOGITECH MX_5500)] (start 0 [])
     = (Done (Some 2%nat), start 1 [])
  /\ exists r fb,
      open_dev [None; Some (mkDevinfo LOGITECH 0x1234);
                Some (mkDevinfo LOGITECH MX_REVOLUTION4);
                Some (mkDevinfo LOGITECH MX_5500)] (start 0 [])
      = (Done r, mkWorld fb [] []).
Proof.
  split; [reflexivity|]. split; [reflexivity|].
  destruct (open_dev_first_supported
              [None; Some (mkDevinfo LOGITECH 0x1234);
               Some (mkDevinfo LOGITECH MX_REVOLUTION4);
               Some (mkDevinfo LOGITECH MX_5500)] (start 0 []) eq_refl)
    as (r & fb & Hrun & _).
  exists r, fb. exact Hrun.
Defined.

(** ** The three attempts of [main] *)

Lemma opens_false h w path :
  first_byte w = 0 -> opens h w path = false ->
  open_dev (hid h path) w = (Done None, w).
Proof.
  intros Hw Ho. unfold open_dev, opens in *.
  destruct (open_dev_loop_spec (firstn 16 (hid h path)) 0 w Hw)
    as (r & fb & Hrun & Hr).
  unfold open_dev in Ho. rewrite Hrun in Ho |- *. cbn [fst] in Ho.
  destruct r as [k|]; [discriminate|].
  destruct Hr as (-> & _). now rewrite <- Hw, world_eta.
Qed.

Lemma opens_true h w path :
  first_byte w = 0 -> opens h w path = true ->
  exists fd fb,
    open_dev (hid h path) w
    = (Done (Some fd), mkWorld fb (trace w) (device w))
    /\ (fb = 1 \/ fb = 2).
Proof.
  intros Hw Ho. unfold open_dev, opens in *.
  destruct (open_dev_loop_spec (firstn 16 (hid h path)) 0 w Hw)
    as (r & fb & Hrun & Hr).
  unfold open_dev in Ho. rewrite Hrun in Ho |- *. cbn [fst] in Ho.
  destruct r as [k|]; [|discriminate].
  destruct Hr as (j & d & _ & _ & Hfb & Hne & _).
  exists k, fb. split; [reflexivity|].
  destruct (discriminant_values d) as [H0|H12]; [congruence|].
  now rewrite Hfb.
Qed.

Lemma open_handle_find h filename w :
  first_byte w = 0 ->
  open_handle h filename w
  = match find (opens h w) (candidate_paths filename) with
    | Some path => open_dev (hid h path) w
    | None => (Done None, w)
    end.
Proof.
  intros Hw.
  destruct filename as [f|];
    unfold open_handle, candidate_paths, IO.bind, IO.ret; cbn [find].
  - destruct (opens h w f) eqn:E1.
    + destruct (opens_true _ _ _ Hw E1) as (fd & fb & Hrun & _).
      now rewrite Hrun.
    + rewrite (opens_false _ _ _ Hw E1).
      destruct (opens h w default_filename) eqn:E2.
      * destruct (opens_true _ _ _ Hw E2) as (fd & fb & Hrun & _).
        now rewrite Hrun.
      * rewrite (opens_false _ _ _ Hw E2).
        destruct (opens h w "/dev/hiddev%d") eqn:E3;
          [reflexivity|now apply opens_false].
  - destruct (opens h w default_filename) eqn:E2.
    + destruct (opens_true _ _ _ Hw E2) as (fd & fb & Hrun & _).
      now rewrite Hrun.
    + rewrite (opens_false _ _ _ Hw E2).
        destruct (opens h w "/dev/hiddev%d") eqn:E3;
          [reflexivity|now apply opens_false].
Qed.

(** X14: [main] tries the path patterns in the order of
    [candidate_paths]: the one given with [-d] if any, then
    [/dev/usb/hiddev%d] (not a second time when no [-d] was given), then
    [/dev/hiddev%d]. It keeps the first pattern under which [open_dev]
    finds a device; an attempt that finds none changes nothing, so each
    attempt starts with [first_byte] 0. When all fail, nothing has
    changed at all. *)
Theorem open_handle_first_path h filename w :
  first_byte w = 0 ->
  open_handle h filename w
  = match find (opens h w) (candidate_paths filename) with
    | Some path => open_dev (hid h path) w
    | None => (Done None, w)
    end.
Proof. apply open_handle_find. Qed.

Lemma open_handle_first_path_witness :
  let h := mkHost (fun path =>
                     if String.eqb path "/dev/hiddev%d"
                     then [None; Some (mkDevinfo LOGITECH MX_5500)]
                     else [Some (mkDevinfo LOGITECH 0x1234)])
                  (fun _ => Opened) None in
  first_byte (start 0 []) = 0
  /\ open_handle h (Some "/dev/hidraw%d") (start 0 [])
     = (Done (Some 1%nat), start 2 []).
Proof.
  intros h. split; [reflexivity|].
  rewrite (open_handle_first_path h (Some "/dev/hidraw%d") (start 0 []) eq_refl).
  reflexivity.
Defined.

(** ** [main] *)

Lemma init_dev_run h w :
  init_dev h w
  = (Done tt,
     after w match fcntl_error h with
             | Some err => [Print ("fcntl(O_NONBLOCK): " ++ err ++ nl)%string]
             | None => []
             end).
Proof.
  unfold init_dev. destruct (fcntl_error h); [reflexivity|].
  unfold IO.ret. now rewrite after_nil.
Qed.

Lemma configure_from_optind optind argv :
  (1 <= optind)%nat ->
  (if (optind <? List.length argv)%nat
   then configure (skipn (optind - 1) argv)
   else IO.ret tt)
  = configure_loop (skipn optind argv).
Proof.
  intros H1. destruct (Nat.ltb_spec optind (List.length argv)) as [Hlt|Hge].
  - unfold configure. rewrite skipn_tl. f_equal. f_equal. lia.
  - rewrite skipn_all2 by lia. reflexivity.
Qed.

Lemma main_from_open_run h filename optind argv w :
  first_byte w = 0 -> (1 <= optind)%nat ->
  main_from_open h filename optind argv w
  = match find (opens h w) (candidate_paths filename) with
    | None => (Troubled (trouble_shooting h), w)
    | Some path =>
        match
          configure_loop (skipn optind argv)
            (after (snd (open_dev (hid h path) w))
               match fcntl_error h with
               | Some err =>
                   [Print ("fcntl(O_NONBLOCK): " ++ err ++ nl)%string]
               | None => []
               end)
        with
        | (Done _, w2) => (Finished, w2)
        | (Fatal e, w2) => (Aborted e, w2)
        end
    end.
Proof.
  intros Hw H1. unfold main_from_open.
  rewrite (open_handle_find _ _ _ Hw).
  destruct (find (opens h w) (candidate_paths filename)) as [path|] eqn:Ef;
    [|reflexivity].
  apply find_some in Ef as [_ Ho].
  destruct (opens_true _ _ _ Hw Ho) as (fd & fb & Hrun & _).
  rewrite Hrun. cbn [snd].
  rewrite (bind_run _ _ _ _ _ (init_dev_run h _)).
  now rewrite (configure_from_optind _ _ H1).
Qed.

(** X15: [main], once the options are parsed and with [first_byte] 0 as
    at program start, either finds no device under any of the candidate
    paths and ends in [trouble_shooting] with the world untouched (no
    command is looked at, [first_byte] is still 0), or runs the loop of
    [configure] on the tokens [argv[optind]], ... in the world that the
    first successful [open_dev] leaves (after the message of [init_dev],
    if any), and then [first_byte] is 1 or 2 to the end. *)
Theorem main_commands_need_a_device h filename optind argv w :
  first_byte w = 0 -> (1 <= optind)%nat ->
  main_from_open h filename optind argv w
  = match find (opens h w) (candidate_paths filename) with
    | None => (Troubled (trouble_shooting h), w)
    | Some path =>
        match
          configure_loop (skipn optind argv)
            (after (snd (open_dev (hid h path) w))
               match fcntl_error h with
               | Some err =>
                   [Print ("fcntl(O_NONBLOCK): " ++ err ++ nl)%string]
               | None => []
               end)
        with
        | (Done _, w2) => (Finished, w2)
        | (Fatal e, w2) => (Aborted e, w2)
        end
    end
  /\ match main_from_open h filename optind argv w with
     | (Troubled _, w') => w' = w
     | (_, w') => first_byte w' = 1 \/ first_byte w' = 2
     end.
Proof.
  intros Hw H1. split; [now apply main_from_open_run|].
  rewrite (main_from_open_run _ _ _ _ _ Hw H1).
  destruct (find (opens h w) (candidate_paths filename)) as [path|] eqn:Ef;
    [|reflexivity].
  apply find_some in Ef as [_ Ho].
  destruct (opens_true _ _ _ Hw Ho) as (fd & fb & Hrun & Hfb).
  rewrite Hrun. cbn [snd].
  match goal with
  | |- context [configure_loop ?a ?w0] =>
      pose proof (keeps_configure_loop a w0) as K;
      destruct (configure_loop a w0) as [[[]|e] w2]
  end; cbn [snd first_byte after] in K; rewrite K; exact Hfb.
Qed.

Lemma main_commands_need_a_device_witness :
  let h := mkHost (fun path =>
                     if String.eqb path "/dev/hiddev%d"
                     then [None; Some (mkDevinfo LOGITECH MX_5500)]
                     else [Some (mkDevinfo LOGITECH 0x1234)])
                  (fun _ => Opened) None in
  first_byte (start 0 []) = 0 /\ (1 <= 3)%nat
  /\ main_from_open h (Some "/dev/hidraw%d") 3
       ["revoco"; "-d"; "/dev/hidraw%d"; "temp-click"; "sleep=2"] (start 0 [])
     = (Finished,
        mkWorld 2 [Write [0x10; 2; 0x80; 0x56; 2; 0; 0]; Sleep 2] []).
Proof.
  intros h. split; [reflexivity|]. split; [lia|].
  rewrite (proj1 (main_commands_need_a_device h (Some "/dev/hidraw%d") 3
                    ["revoco"; "-d"; "/dev/hidraw%d"; "temp-click"; "sleep=2"]
                    (start 0 []) eq_refl ltac:(lia))).
  reflexivity.
Defined.

(** ** The [manual] command, from the token *)

(** X16: for every argument text that decodes, the [manual] command
    sends one report whose opcode is 0x87 for two different buttons and
    0x88 for one button (0x07 and 0x08 after [temp-]), with the buttons,
    each within 0..15, packed as [up * 16 + down] or given as [up]; the
    bare token [manual] sends the toggle report with button 0. *)
Theorem manual_command s up down w :
  twoargs s 0 0 15 = Done (up, down) ->
  (0 <= up <= 15 /\ 0 <= down <= 15)
  /\ configure_arg ("manual" ++ s) w
     = (Done tt,
        after w [Write [0x10; first_byte w; 0x80; 0x56;
                        if up =? down then 0x88 else 0x87;
                        if up =? down then up else up * 16 + down;
                        0]])
  /\ configure_arg ("temp-manual" ++ s) w
     = (Done tt,
        after w [Write [0x10; first_byte w; 0x80; 0x56;
                        if up =? down then 0x08 else 0x07;
                        if up =? down then up else up * 16 + down;
                        0]])
  /\ configure_arg "manual" w
     = (Done tt, after w [Write [0x10; first_byte w; 0x80; 0x56; 0x88; 0; 0]]).
Proof.
  intros H. destruct (manual_token s up down w H) as (Hr & Hm & Ht).
  split; [exact Hr|].
  rewrite Hm, Ht, !manual_cmd_run.
  assert (Hb : u8 (if up =? down then up else up * 16 + down)
               = if up =? down then up else up * 16 + down).
  { destruct (up =? down); apply u8_small; lia. }
  rewrite Hb. destruct (up =? down); repeat split; reflexivity.
Qed.

Lemma manual_command_witness :
  twoargs "=4,0xb" 0 0 15 = Done (4, 11)
  /\ configure_arg "temp-manual=4,0xb" (start 1 [])
     = (Done tt, after (start 1 []) [Write [0x10; 1; 0x80; 0x56; 0x07; 0x4b; 0]]).
Proof.
  split; [reflexivity|].
  apply (proj1 (proj2 (proj2 (manual_command "=4,0xb" 4 11 (start 1 [])
                                eq_refl)))).
Defined.
